(** * Storage-commitment tokens: the decode-and-verify pipeline of [TopicManager]

    A shallow embedding of [TopicManager.decodeOutputScript],
    [TopicManager.isValidSHA256] and [TopicManager.evaluateCommitment],
    together with the test helper [createOutputScript], and the properties
    of the pipeline that the design document states.

    Conventions of the embedding:
    - a Node [Buffer] is a list of bytes;
    - a JavaScript string is the list of its UTF-16 code units;
    - a JavaScript number produced by [parseInt] is either [NaN] or an
      integer ([JSNumber]);
    - code that may throw lives in the [Completion] monad, and [try]/[catch]
      is the combinator [try_catch];
    - the producer side is that of the test suite: [createOutputScriptOf]
      and [signCommitment] on fields that are strings or buffers, with
      [Buffer.from(s, 'utf8')] and [Number.prototype.toString];
    - the collaborators that are imported and not defined by the program
      ([Hash.sha256], [Signature.fromDER], [isValidURL]) are variables of
      the section [TopicManager], and a public key is the record of its
      [verify] method; every theorem holds for all of them, whether they
      return or throw. *)

From Stdlib Require Import List Arith Lia ZArith NArith Bool String Ascii.
From Stdlib.Strings Require Import Byte.
From Equations Require Import Equations.
Import ListNotations.

Set Implicit Arguments.

(* ===================================================================== *)
(** ** Buffers *)
(* ===================================================================== *)

Definition Buffer := list byte.

(** [buf.slice(start, end)] for [0 <= start <= end]: both ends are clipped
    to the length of the buffer, nothing is read past it. *)
Definition slice (buf : Buffer) (start finish : nat) : Buffer :=
  firstn (finish - start) (skipn start buf).

(** [buf[i]] as a number, for an index inside the buffer. *)
Definition byte_at (buf : Buffer) (i : nat) : nat :=
  Byte.to_nat (nth i buf x00).

(** [Buffer.from([n])]: the number is stored modulo 256. *)
Definition byte_of_length (n : nat) : byte :=
  match Byte.of_nat (n mod 256) with
  | Some b => b
  | None => x00
  end.

(** Bytes of an ASCII literal, to write concrete buffers. *)
Definition bytes (s : string) : Buffer := list_byte_of_string s.

(* ===================================================================== *)
(** ** Completions: values and thrown exceptions *)
(* ===================================================================== *)

Inductive Exception : Type :=
| TypeError (message : string)
| Error (message : string).

Inductive Completion (A : Type) : Type :=
| Return (value : A)
| Throw (error : Exception).

Arguments Return {A} value.
Arguments Throw {A} error.

Definition bind {A B : Type} (c : Completion A) (k : A -> Completion B)
  : Completion B :=
  match c with
  | Return v => k v
  | Throw e => Throw e
  end.

Notation "x <- c ;; k" := (bind c (fun x => k))
  (at level 61, c at next level, right associativity).
Notation "c ;;; k" := (bind c (fun _ => k))
  (at level 61, right associativity).

(** [if (cond) throw new Error(message)] *)
Definition throw_if (cond : bool) (message : string) : Completion unit :=
  if cond then Throw (Error message) else Return tt.

(** [try { body } catch (error) { handler }] *)
Definition try_catch {A : Type} (body : Completion A)
  (handler : Exception -> Completion A) : Completion A :=
  match body with
  | Return v => Return v
  | Throw e => handler e
  end.

(* ===================================================================== *)
(** ** JavaScript strings and numbers *)
(* ===================================================================== *)

(** A string is the sequence of its UTF-16 code units. *)
Definition JSString := list N.

Definition str (s : string) : JSString :=
  map N_of_ascii (list_ascii_of_string s).

(** [a === b] on strings. *)
Fixpoint string_eqb (a b : JSString) : bool :=
  match a, b with
  | [], [] => true
  | x :: a', y :: b' => N.eqb x y && string_eqb a' b'
  | _, _ => false
  end.

(** *** [buf.toString('hex')] *)

Definition hex_digit (n : N) : N :=
  if (n <? 10)%N then (48 + n)%N else (87 + n)%N.

Definition hex_of_byte (b : byte) : JSString :=
  let n := Byte.to_N b in
  [hex_digit (n / 16)%N; hex_digit (n mod 16)%N].

Definition toString_hex (buf : Buffer) : JSString :=
  flat_map hex_of_byte buf.

(** *** [buf.toString('utf8')]

    The decoder of the Encoding standard, which Node follows: an
    ill-formed sequence becomes U+FFFD, the byte that broke a sequence is
    read again as a lead byte, and a byte order mark is kept. *)

Definition REPLACEMENT : N := 65533.

Definition utf16_units (cp : N) : JSString :=
  if (cp <? 65536)%N then [cp]
  else let c := (cp - 65536)%N in
       [(55296 + c / 1024)%N; (56320 + c mod 1024)%N].

Inductive utf8_state : Type :=
| Idle
| Pending (code_point : N) (needed : nat) (lower upper : N).

Definition within (lo hi n : N) : bool := (lo <=? n)%N && (n <=? hi)%N.

Definition utf8_lead (n : N) : JSString * utf8_state :=
  if (n <=? 127)%N then ([n], Idle)
  else if within 194 223 n then ([], Pending (N.land n 31) 1 128 191)
  else if within 224 239 n then
    ([], Pending (N.land n 15) 2
           (if (n =? 224)%N then 160%N else 128%N)
           (if (n =? 237)%N then 159%N else 191%N))
  else if within 240 244 n then
    ([], Pending (N.land n 7) 3
           (if (n =? 240)%N then 144%N else 128%N)
           (if (n =? 244)%N then 143%N else 191%N))
  else ([REPLACEMENT], Idle).

Fixpoint utf8_decode (st : utf8_state) (bs : Buffer) : JSString :=
  match bs with
  | [] => match st with Idle => [] | Pending _ _ _ _ => [REPLACEMENT] end
  | b :: bs' =>
    let n := Byte.to_N b in
    match st with
    | Idle => let '(out, st') := utf8_lead n in out ++ utf8_decode st' bs'
    | Pending cp needed lo hi =>
      if within lo hi n then
        let cp' := N.lor (N.shiftl cp 6) (N.land n 63) in
        match needed with
        | S (S k) => utf8_decode (Pending cp' (S k) 128 191) bs'
        | _ => utf16_units cp' ++ utf8_decode Idle bs'
        end
      else
        let '(out, st') := utf8_lead n in
        REPLACEMENT :: out ++ utf8_decode st' bs'
    end
  end.

Definition toString_utf8 (buf : Buffer) : JSString := utf8_decode Idle buf.

(** *** Numbers

    [parseInt] yields [NaN] or an integer.  The program only compares the
    result with the current time in seconds and with [0]; both are small
    integers that a double holds exactly, and rounding to the nearest
    double is monotone, so comparing the exact integers gives the same
    answers as comparing the doubles. *)

Inductive JSNumber : Type :=
| NaN
| Num (value : Z).

(** [a <= b]: false as soon as one side is [NaN]. *)
Definition js_le (a b : JSNumber) : bool :=
  match a, b with
  | Num x, Num y => (x <=? y)%Z
  | _, _ => false
  end.

(** White space and line terminators that [parseInt] skips. *)
Definition isWhiteSpace (c : N) : bool :=
  within 9 13 c || (c =? 32)%N || (c =? 160)%N || (c =? 5760)%N
  || within 8192 8202 c || (c =? 8232)%N || (c =? 8233)%N
  || (c =? 8239)%N || (c =? 8287)%N || (c =? 12288)%N || (c =? 65279)%N.

Fixpoint trimStart (s : JSString) : JSString :=
  match s with
  | c :: s' => if isWhiteSpace c then trimStart s' else s
  | [] => []
  end.

Definition isDigit (c : N) : bool := within 48 57 c.

(** The longest prefix of decimal digits. *)
Fixpoint digits (s : JSString) : JSString :=
  match s with
  | c :: s' => if isDigit c then c :: digits s' else []
  | [] => []
  end.

Definition digits_value (ds : JSString) : Z :=
  fold_left (fun acc c => (10 * acc + (Z.of_N c - 48))%Z) ds 0%Z.

(** [parseInt(s, 10)] *)
Definition parseInt (s : JSString) : JSNumber :=
  let s1 := trimStart s in
  let sign := match s1 with
              | 45%N :: _ => (-1)%Z
              | _ => 1%Z
              end in
  let s2 := match s1 with
            | 43%N :: r => r
            | 45%N :: r => r
            | _ => s1
            end in
  match digits s2 with
  | [] => NaN
  | ds => Num (sign * digits_value ds)
  end.

(* ===================================================================== *)
(** ** The decoder *)
(* ===================================================================== *)

(** The [while] loop of [decodeOutputScript]: [i] is the cursor and
    [fields] the array filled so far. *)
Equations? decode_loop (outputScript : Buffer) (i : nat)
  (fields : list Buffer) : list Buffer
  by wf (List.length outputScript - i) lt :=
decode_loop outputScript i fields with lt_dec i (List.length outputScript) := {
  | left _ =>
      let len := byte_at outputScript i in
      let field := slice outputScript (i + 1) (i + 1 + len) in
      decode_loop outputScript (i + 1 + len) (fields ++ [field])
  | right _ => fields }.
Proof. lia. Qed.

Definition decodeOutputScript (outputScript : Buffer) : list Buffer :=
  decode_loop outputScript 0 [].

(** [createOutputScript] of the test suite: every field is written as one
    length byte followed by its content. *)
Definition createOutputScript (fields : list Buffer) : Buffer :=
  flat_map (fun fieldBuffer =>
              [byte_of_length (List.length fieldBuffer)] ++ fieldBuffer) fields.

(* ===================================================================== *)
(** ** The validator *)
(* ===================================================================== *)

Definition UHRP_PROTOCOL_ADDRESS : JSString :=
  str "1UHRPYnMHPuQ5Tgb3AF8JXqwKkmZVy5hG".

Definition isLowerHex (c : N) : bool := within 97 102 c || within 48 57 c.

(** [/^[a-f0-9]{64}$/.test(hash)]: without flags, [^] and [$] are the two
    ends of the string. *)
Definition isValidSHA256 (hash : JSString) : bool :=
  (List.length hash =? 64) && forallb isLowerHex hash.

(** [fields[k]]: [None] is [undefined]. *)
Definition field (fields : list Buffer) (k : nat) : option Buffer :=
  nth_error fields k.

(** [x.toString('utf8')] and [x.toString('hex')]: reading a property of
    [undefined] throws a [TypeError]. *)
Definition call_toString (encoding : Buffer -> JSString) (x : option Buffer)
  : Completion JSString :=
  match x with
  | Some buf => Return (encoding buf)
  | None => Throw (TypeError "Cannot read properties of undefined")
  end.

(** [Array.from(x)]: [undefined] is not iterable. *)
Definition Array_from (x : option Buffer) : Completion (list byte) :=
  match x with
  | Some buf => Return buf
  | None => Throw (TypeError "undefined is not iterable")
  end.

(** [Buffer.concat(list)] *)
Definition Buffer_concat (bufs : list Buffer) : Buffer := List.concat bufs.

(** [arr.slice(0, n)] *)
Definition array_slice0 (arr : list Buffer) (n : nat) : list Buffer :=
  firstn n arr.

Section TopicManager.

(** The class [Signature] of the SDK and [Signature.fromDER], which
    throws on bytes that are not a DER signature. *)
Variable Signature : Type.
Variable Signature_fromDER : list byte -> Completion Signature.

(** [Hash.sha256] *)
Variable Hash_sha256 : list byte -> list byte.

(** [isValidURL] of [./utils/utils]. *)
Variable isValidURL : JSString -> Completion bool.

(** A public key is used through [pubKey.verify(digest, signature)]
    only. *)
Record PublicKey : Type := { verify : list byte -> Signature -> Completion bool }.

(** The body of the [try] block of [evaluateCommitment], statement by
    statement; [dateNow] is the value of [Date.now()].  The calls of
    [console.log] are kept where their arguments can throw. *)
Definition evaluateCommitment_body (outputScript : Buffer)
  (pubKey : PublicKey) (dateNow : Z) : Completion bool :=
  let fields := decodeOutputScript outputScript in
  call_toString toString_utf8 (field fields 0) ;;;
  call_toString toString_utf8 (field fields 1) ;;;
  call_toString toString_utf8 (field fields 4) ;;;
  call_toString toString_utf8 (field fields 5) ;;;
  call_toString toString_utf8 (field fields 6) ;;;
  tag <- call_toString toString_utf8 (field fields 0) ;;
  throw_if (negb (string_eqb tag UHRP_PROTOCOL_ADDRESS))
           "Invalid UHRP protocol address." ;;;
  hash <- call_toString toString_hex (field fields 2) ;;
  throw_if (negb (isValidSHA256 hash)) "Invalid SHA256 hash." ;;;
  url <- call_toString toString_utf8 (field fields 4) ;;
  urlOk <- isValidURL url ;;
  throw_if (negb urlOk) "Invalid URL." ;;;
  expiryText <- call_toString toString_utf8 (field fields 5) ;;
  let expiryTime := parseInt expiryText in
  let currentTime := (dateNow / 1000)%Z in
  throw_if (js_le expiryTime (Num currentTime))
           "Invalid or expired timestamp." ;;;
  sizeText <- call_toString toString_utf8 (field fields 6) ;;
  let fileSize := parseInt sizeText in
  throw_if (js_le fileSize (Num 0)) "Invalid file size." ;;;
  let signatureBuffer := field fields 7 in
  let message := Buffer_concat (array_slice0 fields 7) in
  let sha256Message := Hash_sha256 message in
  signatureBytes <- Array_from signatureBuffer ;;
  signature <- Signature_fromDER signatureBytes ;;
  isSignatureValid <- verify pubKey sha256Message signature ;;
  throw_if (negb isSignatureValid) "Invalid signature." ;;;
  Return true.

(** [evaluateCommitment]: the [catch] clause logs the error and returns
    [false]. *)
Definition evaluateCommitment (outputScript : Buffer) (pubKey : PublicKey)
  (dateNow : Z) : Completion bool :=
  try_catch (evaluateCommitment_body outputScript pubKey dateNow)
            (fun error => Return false).

End TopicManager.

(* ===================================================================== *)
(** ** Notions used by the statements *)
(* ===================================================================== *)

(** [overruns_from outputScript i]: walking the length bytes from the
    cursor [i] the way the decoder does, some length byte claims more
    bytes than the buffer has left after it. *)
Equations? overruns_from (outputScript : Buffer) (i : nat) : bool
  by wf (List.length outputScript - i) lt :=
overruns_from outputScript i with lt_dec i (List.length outputScript) := {
  | left _ =>
      let len := byte_at outputScript i in
      if List.length outputScript <? i + 1 + len then true
      else overruns_from outputScript (i + 1 + len)
  | right _ => false }.
Proof. lia. Qed.

Definition overruns (outputScript : Buffer) : bool :=
  overruns_from outputScript 0.

(** Every field fits the single length byte. *)
Definition encodable (fields : list Buffer) : Prop :=
  Forall (fun fieldBuffer => List.length fieldBuffer <= 255) fields.

Section Statements.

Variable Signature : Type.
Variable Signature_fromDER : list byte -> Completion Signature.
Variable Hash_sha256 : list byte -> list byte.

(** The signature check as the design document words it: (a) the
    message is the concatenation of the contents of the message fields,
    (b) it is digested, (c) the signature bytes are parsed as DER, a
    parse failure being a verification failure, (d) the key checks the
    digest against the signature and its boolean decides. *)
Definition spec_SignatureVerifier (messageFields : list Buffer)
  (signatureBytes : Buffer) (publicKey : PublicKey Signature) : bool :=
  let canonicalMessage := List.concat messageFields in
  let digest := Hash_sha256 canonicalMessage in
  match Signature_fromDER signatureBytes with
  | Throw _ => false
  | Return signature =>
    match verify publicKey digest signature with
    | Return result => result
    | Throw _ => false
    end
  end.

(** [admits fields pubKey dateNow]: the fields that the validator reads
    are present and the seven checks of [evaluateCommitment] go through,
    each stated as the program computes it. *)
Variable isValidURL : JSString -> Completion bool.

Definition admits (fields : list Buffer) (pubKey : PublicKey Signature)
  (dateNow : Z) : Prop :=
  exists f0 f1 f2 f4 f5 f6 f7 signature,
    field fields 0 = Some f0 /\ field fields 1 = Some f1 /\
    field fields 2 = Some f2 /\ field fields 4 = Some f4 /\
    field fields 5 = Some f5 /\ field fields 6 = Some f6 /\
    field fields 7 = Some f7 /\
    string_eqb (toString_utf8 f0) UHRP_PROTOCOL_ADDRESS = true /\
    isValidSHA256 (toString_hex f2) = true /\
    isValidURL (toString_utf8 f4) = Return true /\
    js_le (parseInt (toString_utf8 f5)) (Num (dateNow / 1000)) = false /\
    js_le (parseInt (toString_utf8 f6)) (Num 0) = false /\
    Signature_fromDER f7 = Return signature /\
    verify pubKey (Hash_sha256 (Buffer_concat (array_slice0 fields 7)))
           signature = Return true.

End Statements.

(* ===================================================================== *)
(** ** A fixture to run the validator *)
(* ===================================================================== *)

(** The validator is parametric in the SDK.  To evaluate it on concrete
    tokens the fixture supplies small stand-ins with the interface of the
    SDK: a digest, a DER-like envelope, and keys that accept the
    signatures made by [signCommitment] with the same secret.  They have
    no cryptographic content; the theorems never rely on them. *)
Module Fixture.

Definition Signature : Type := list byte.

Fixpoint bytes_eqb (a b : list byte) : bool :=
  match a, b with
  | [], [] => true
  | x :: a', y :: b' => Byte.eqb x y && bytes_eqb a' b'
  | _, _ => false
  end.

(** An envelope [0x30, length, payload]; anything else is refused. *)
Definition Signature_fromDER (der : list byte) : Completion Signature :=
  match der with
  | x30 :: len :: payload =>
      if Byte.to_nat len =? List.length payload then Return payload
      else Throw (Error "Signature DER length mismatch")
  | _ => Throw (Error "Signature DER must start with 0x30")
  end.

(** A two-byte digest: the length and the sum of the bytes, modulo 256. *)
Definition Hash_sha256 (message : list byte) : list byte :=
  [byte_of_length (List.length message);
   byte_of_length (fold_left (fun acc b => acc + Byte.to_nat b) message 0)].

Fixpoint starts_with (prefix s : JSString) : bool :=
  match prefix, s with
  | [], _ => true
  | p :: prefix', c :: s' => N.eqb p c && starts_with prefix' s'
  | _ :: _, [] => false
  end.

Definition isValidURL (url : JSString) : Completion bool :=
  Return (starts_with (str "https://") url || starts_with (str "http://") url).

Definition sign (secret : byte) (digest : list byte) : Signature :=
  secret :: digest.

Definition toDER (signature : Signature) : Buffer :=
  x30 :: byte_of_length (List.length signature) :: signature.

Definition pubKey (secret : byte) : PublicKey Signature :=
  {| verify := fun digest signature =>
                 Return (bytes_eqb signature (sign secret digest)) |}.

(** [signCommitment] of the test suite. *)
Definition signCommitment (secret : byte) (fields : list Buffer) : Buffer :=
  let message := Buffer_concat fields in
  let sha256Message := Hash_sha256 message in
  toDER (sign secret sha256Message).

Definition evaluate (outputScript : Buffer) (key : PublicKey Signature)
  (dateNow : Z) : Completion bool :=
  evaluateCommitment Signature_fromDER Hash_sha256 isValidURL
                     outputScript key dateNow.

(** The token of the test suite, with a chosen expiry and file size. *)
Definition VALID_HASH : Buffer := repeat xab 32.

Definition messageFields (expiry fileSize : string) : list Buffer :=
  [bytes "1UHRPYnMHPuQ5Tgb3AF8JXqwKkmZVy5hG"; bytes "host";
   VALID_HASH; bytes "advertise"; bytes "https://valid.url";
   bytes expiry; bytes fileSize].

Definition tokenFields (expiry fileSize : string) : list Buffer :=
  messageFields expiry fileSize
    ++ [signCommitment x2a (messageFields expiry fileSize)].

Definition token (expiry fileSize : string) : Buffer :=
  createOutputScript (tokenFields expiry fileSize).

(** [Date.now()] of the examples: second 1700000000 and 123 ms. *)
Definition dateNow : Z := 1700000000123.

(** The valid token with the length byte of its signature field raised
    to 80, although only the five bytes of the signature follow. *)
Definition overrunToken : Buffer :=
  createOutputScript (messageFields "1700001000" "1024")
    ++ x50 :: signCommitment x2a (messageFields "1700001000" "1024").

(** The token of the test [should reject an invalid hash]: field 2 is
    the text [invalidhash]. *)
Definition invalidHashToken : Buffer :=
  createOutputScript
    [bytes "1UHRPYnMHPuQ5Tgb3AF8JXqwKkmZVy5hG"; bytes "host";
     bytes "invalidhash"; bytes "advertise"; bytes "https://valid.url";
     bytes "1700001000"; bytes "1024";
     signCommitment x2a (messageFields "1700001000" "1024")].

(** The valid token followed by the start of a ninth field: a length byte
    that announces five bytes, and one byte. *)
Definition trailingToken : Buffer :=
  token "1700001000" "1024" ++ [x05; x41].

End Fixture.

(* ===================================================================== *)
(** ** The producer side: the helpers of the test suite *)
(* ===================================================================== *)

(** A number below 256 as a byte; [Buffer.from] keeps the low eight bits. *)
Definition byte_of_N (n : N) : byte :=
  match Byte.of_N (n mod 256) with
  | Some b => b
  | None => x00
  end.

Definition isHighSurrogate (c : N) : bool := within 55296 56319 c.
Definition isLowSurrogate (c : N) : bool := within 56320 57343 c.

(** The UTF-8 bytes of one code point. *)
Definition utf8_bytes (cp : N) : Buffer :=
  if (cp <? 128)%N then [byte_of_N cp]
  else if (cp <? 2048)%N then
    [byte_of_N (192 + cp / 64); byte_of_N (128 + cp mod 64)]
  else if (cp <? 65536)%N then
    [byte_of_N (224 + cp / 4096); byte_of_N (128 + (cp / 64) mod 64);
     byte_of_N (128 + cp mod 64)]
  else
    [byte_of_N (240 + cp / 262144); byte_of_N (128 + (cp / 4096) mod 64);
     byte_of_N (128 + (cp / 64) mod 64); byte_of_N (128 + cp mod 64)].

(** [Buffer.from(s, 'utf8')]: a surrogate pair is one code point, a lone
    surrogate is written as U+FFFD. *)
Fixpoint Buffer_from_utf8 (s : JSString) : Buffer :=
  match s with
  | [] => []
  | c :: s' =>
    if isHighSurrogate c then
      match s' with
      | c2 :: s'' =>
        if isLowSurrogate c2 then
          utf8_bytes (65536 + (c - 55296) * 1024 + (c2 - 56320))
            ++ Buffer_from_utf8 s''
        else utf8_bytes REPLACEMENT ++ Buffer_from_utf8 s'
      | [] => utf8_bytes REPLACEMENT
      end
    else if isLowSurrogate c then utf8_bytes REPLACEMENT ++ Buffer_from_utf8 s'
    else utf8_bytes c ++ Buffer_from_utf8 s'
  end.

(** The decimal digits of [n] in front of [acc], most significant first. *)
Fixpoint decimal_digits (fuel : nat) (n : N) (acc : JSString) : JSString :=
  match fuel with
  | O => acc
  | S fuel' =>
    let acc' := (48 + n mod 10)%N :: acc in
    if (n / 10 =? 0)%N then acc' else decimal_digits fuel' (n / 10) acc'
  end.

(** [n.toString()] for an integer of magnitude below 10^21, where
    JavaScript writes all the digits and no exponent.  A number of [b]
    bits has at most [b] decimal digits, which bounds the recursion. *)
Definition Number_toString (n : Z) : JSString :=
  match n with
  | Z0 => [48%N]
  | Zpos p => decimal_digits (S (N.to_nat (N.log2 (Npos p)))) (Npos p) []
  | Zneg p =>
      45%N :: decimal_digits (S (N.to_nat (N.log2 (Npos p)))) (Npos p) []
  end.

(** A field as the test suite passes it: a string or a buffer. *)
Definition TestField : Type := (JSString + Buffer)%type.

(** [typeof field === 'string' ? Buffer.from(field, 'utf8') : field] *)
Definition toFieldBuffer (field : TestField) : Buffer :=
  match field with
  | inl text => Buffer_from_utf8 text
  | inr buf => buf
  end.


Section TestSuite.

Variable Signature : Type.
Variable PrivateKey : Type.

(** [Hash.sha256], [privateKey.sign(digest)] and [signature.toDER()]. *)
Variable Hash_sha256 : list byte -> list byte.
Variable PrivateKey_sign : PrivateKey -> list byte -> Signature.
Variable Signature_toDER : Signature -> list byte.

(** [signCommitment] of the test suite. *)
Definition signCommitment (privateKey : PrivateKey)
  (fields : list TestField) : Buffer :=
  let message := Buffer_concat (map toFieldBuffer fields) in
  let sha256Message := Hash_sha256 message in
  let signature := PrivateKey_sign privateKey sha256Message in
  Signature_toDER signature.

End TestSuite.




(** A pending sequence whose code point, once complete, is at least 128:
    [cp] holds the bits read so far, [needed] continuation bytes are
    missing and the next one is at least [lo]. *)
Definition pending_ok (cp : N) (needed : nat) (lo hi : N) : Prop :=
  1 <= needed /\ (128 <= lo)%N /\ (hi <= 191)%N
  /\ (128 <= N.max (cp * 64) (lo - 128) * 64 ^ N.of_nat (needed - 1))%N.

Example decode_two :
  decodeOutputScript (createOutputScript [bytes "ab"; bytes ""; bytes "xyz"])
  = [bytes "ab"; bytes ""; bytes "xyz"].
Proof. reflexivity. Qed.

Example parse_ok : parseInt (toString_utf8 (bytes " -12x")) = Num (-12).
Proof. reflexivity. Qed.

Example parse_nan : parseInt (toString_utf8 (bytes "abc")) = NaN.
Proof. reflexivity. Qed.

Example number_text :
  Number_toString 1700001000 = str "1700001000"
  /\ Number_toString (-1) = str "-1" /\ Number_toString 0 = str "0".
Proof. repeat split. Qed.

Example utf8_bytes_of_text :
  Buffer_from_utf8 [233%N; 8364%N; 55357%N; 56832%N; 56832%N]
  = [xc3; xa9; xe2; x82; xac; xf0; x9f; x98; x80; xef; xbf; xbd].
Proof. reflexivity. Qed.

Example utf8_text_of_bytes :
  toString_utf8 [xc3; xa9; xe2; x82; xac; xf0; x9f; x98; x80; xe2; x82]
  = [233%N; 8364%N; 55357%N; 56832%N; 65533%N].
Proof. reflexivity. Qed.

Example valid_token_admitted :
  Fixture.evaluate (Fixture.token "1700001000" "1024") (Fixture.pubKey x2a)
                   Fixture.dateNow = Return true.
Proof. vm_compute. reflexivity. Qed.

Example other_key_rejected :
  Fixture.evaluate (Fixture.token "1700001000" "1024") (Fixture.pubKey x2b)
                   Fixture.dateNow = Return false.
Proof. vm_compute. reflexivity. Qed.

Example expired_rejected :
  Fixture.evaluate (Fixture.token "1699999000" "1024") (Fixture.pubKey x2a)
                   Fixture.dateNow = Return false.
Proof. vm_compute. reflexivity. Qed.

Example negative_size_rejected :
  Fixture.evaluate (Fixture.token "1700001000" "-1") (Fixture.pubKey x2a)
                   Fixture.dateNow = Return false.
Proof. vm_compute. reflexivity. Qed.

(* ===================================================================== *)
(** ** The decoder: unfolding, accumulator, round trip *)
(* ===================================================================== *)

Unset Implicit Arguments.

Lemma decode_loop_step (buf : Buffer) (i : nat) (acc : list Buffer) :
  i < List.length buf ->
  decode_loop buf i acc =
  decode_loop buf (i + 1 + byte_at buf i)
              (acc ++ [slice buf (i + 1) (i + 1 + byte_at buf i)]).
Proof.
  intros Hi. rewrite decode_loop_equation_1 at 1.
  destruct (lt_dec i (List.length buf)) as [Hlt|Hn]; [reflexivity | contradiction].
Qed.

Lemma decode_loop_end (buf : Buffer) (i : nat) (acc : list Buffer) :
  List.length buf <= i -> decode_loop buf i acc = acc.
Proof.
  intros Hi. rewrite decode_loop_equation_1.
  destruct (lt_dec i (List.length buf)) as [Hlt|Hn]; [lia | reflexivity].
Qed.

(** Induction on the number of bytes the cursor still has in front of it. *)
Lemma cursor_ind (buf : Buffer) (P : nat -> Prop) :
  (forall i, List.length buf <= i -> P i) ->
  (forall i, i < List.length buf -> P (i + 1 + byte_at buf i) -> P i) ->
  forall i, P i.
Proof.
  intros Hend Hstep i.
  remember (List.length buf - i) as d eqn:Hd.
  revert i Hd. induction d as [d IH] using lt_wf_ind. intros i Hd.
  destruct (le_lt_dec (List.length buf) i) as [Hle|Hlt].
  - now apply Hend.
  - apply Hstep; [assumption|].
    apply (IH (List.length buf - (i + 1 + byte_at buf i))); [lia | reflexivity].
Qed.

(** The fields found from a cursor are appended to those found before. *)
Lemma decode_loop_acc (buf : Buffer) (i : nat) (acc : list Buffer) :
  decode_loop buf i acc = acc ++ decode_loop buf i [].
Proof.
  revert i acc.
  apply (cursor_ind buf
           (fun i => forall acc,
                decode_loop buf i acc = acc ++ decode_loop buf i [])).
  - intros i Hi acc. rewrite !decode_loop_end by assumption.
    now rewrite app_nil_r.
  - intros i Hi IH acc. rewrite !(decode_loop_step _ _ _ Hi).
    rewrite (IH (acc ++ _)), (IH ([] ++ _)). now rewrite <- app_assoc.
Qed.

Lemma to_nat_byte_of_length (n : nat) :
  n <= 255 -> Byte.to_nat (byte_of_length n) = n.
Proof.
  intros Hn. unfold byte_of_length.
  rewrite Nat.mod_small by lia.
  destruct (Byte.of_nat n) as [b|] eqn:E.
  - now apply Byte.to_of_nat.
  - apply Byte.of_nat_None_iff in E. lia.
Qed.

Lemma slice_middle (pre mid post : Buffer) :
  slice (pre ++ mid ++ post) (List.length pre)
        (List.length pre + List.length mid) = mid.
Proof.
  unfold slice.
  rewrite skipn_app, skipn_all, Nat.sub_diag. cbn [skipn app].
  replace (List.length pre + List.length mid - List.length pre)
    with (List.length mid + 0) by lia.
  rewrite firstn_app_2. cbn. now rewrite app_nil_r.
Qed.

Lemma createOutputScript_cons (f : Buffer) (fs : list Buffer) :
  createOutputScript (f :: fs)
  = byte_of_length (List.length f) :: f ++ createOutputScript fs.
Proof. reflexivity. Qed.

(** Decoding an encoding that starts at the cursor. *)
Lemma decode_loop_createOutputScript (fields : list Buffer) :
  encodable fields ->
  forall (pre : Buffer) (acc : list Buffer),
    decode_loop (pre ++ createOutputScript fields) (List.length pre) acc
    = acc ++ fields.
Proof.
  induction 1 as [|f fs Hf Hfs IH]; intros pre acc.
  - cbn. rewrite app_nil_r. rewrite decode_loop_end by lia.
    now rewrite app_nil_r.
  - rewrite createOutputScript_cons.
    set (lb := byte_of_length (List.length f)).
    assert (Hat : byte_at (pre ++ lb :: f ++ createOutputScript fs)
                          (List.length pre) = List.length f).
    { unfold byte_at. rewrite app_nth2 by lia. rewrite Nat.sub_diag. cbn.
      now apply to_nat_byte_of_length. }
    rewrite decode_loop_step by (rewrite length_app; cbn; lia).
    rewrite Hat.
    assert (Hs : slice (pre ++ lb :: f ++ createOutputScript fs)
                       (List.length pre + 1) (List.length pre + 1 + List.length f)
                 = f).
    { replace (pre ++ lb :: f ++ createOutputScript fs)
        with ((pre ++ [lb]) ++ f ++ createOutputScript fs)
        by (now rewrite <- app_assoc).
      replace (List.length pre + 1) with (List.length (pre ++ [lb]))
        by (rewrite length_app; reflexivity).
      apply slice_middle. }
    rewrite Hs.
    replace (pre ++ lb :: f ++ createOutputScript fs)
      with ((pre ++ lb :: f) ++ createOutputScript fs)
      by (rewrite <- app_assoc; reflexivity).
    replace (List.length pre + 1 + List.length f)
      with (List.length (pre ++ lb :: f))
      by (rewrite length_app; cbn; lia).
    rewrite IH. now rewrite <- app_assoc.
Qed.

(** C7. Round trip: eight fields of at most 255 bytes each, written by
    [createOutputScript] as a length byte followed by the content, are
    read back by [decodeOutputScript] exactly and in order. *)
Theorem decode_createOutputScript_roundtrip (fields : list Buffer) :
  List.length fields = 8 ->
  encodable fields ->
  decodeOutputScript (createOutputScript fields) = fields.
Proof.
  intros _ Henc. unfold decodeOutputScript.
  exact (decode_loop_createOutputScript fields Henc [] []).
Qed.

Lemma decode_createOutputScript_roundtrip_witness :
  decodeOutputScript
    (createOutputScript (Fixture.tokenFields "1700001000" "1024"))
  = Fixture.tokenFields "1700001000" "1024".
Proof.
  apply decode_createOutputScript_roundtrip.
  - reflexivity.
  - unfold encodable. repeat constructor; vm_compute; discriminate.
Defined.

(* ===================================================================== *)
(** ** The validator: when it answers [true] *)
(* ===================================================================== *)

Lemma bind_Return_inv {A B : Type} (c : Completion A)
  (k : A -> Completion B) (v : B) :
  bind c k = Return v -> exists x, c = Return x /\ k x = Return v.
Proof.
  destruct c as [x|e]; cbn; intros H; [eauto | discriminate].
Qed.

Lemma throw_if_Return_inv (cond : bool) (message : string) (u : unit) :
  throw_if cond message = Return u -> cond = false.
Proof. destruct cond; cbn; [discriminate | reflexivity]. Qed.

Lemma call_toString_Return_inv (encoding : Buffer -> JSString)
  (x : option Buffer) (s : JSString) :
  call_toString encoding x = Return s ->
  exists buf, x = Some buf /\ s = encoding buf.
Proof.
  destruct x as [buf|]; cbn; intros H; [|discriminate].
  injection H as <-. eauto.
Qed.

Lemma Array_from_Return_inv (x : option Buffer) (l : list byte) :
  Array_from x = Return l -> x = Some l.
Proof.
  destruct x as [buf|]; cbn; intros H; [|discriminate].
  now injection H as <-.
Qed.

(** One statement of the [try] block that returned: what it returned and
    what follows it. *)
Ltac returned H :=
  let x := fresh "x" in
  let Hx := fresh "Hx" in
  apply bind_Return_inv in H; destruct H as (x & Hx & H).

Section Verdict.

Variable Signature : Type.
Variable Signature_fromDER : list byte -> Completion Signature.
Variable Hash_sha256 : list byte -> list byte.
Variable isValidURL : JSString -> Completion bool.

Local Abbreviation evaluate := (evaluateCommitment Signature_fromDER Hash_sha256 isValidURL).
Local Abbreviation body := (evaluateCommitment_body Signature_fromDER Hash_sha256 isValidURL).
Local Abbreviation admitted := (admits Signature_fromDER Hash_sha256 isValidURL).

Lemma body_Return_admits (outputScript : Buffer)
  (pubKey : PublicKey Signature) (dateNow : Z) (b : bool) :
  body outputScript pubKey dateNow = Return b ->
  b = true /\ admitted (decodeOutputScript outputScript) pubKey dateNow.
Proof.
  unfold evaluateCommitment_body. cbv zeta.
  set (fields := decodeOutputScript outputScript).
  intros H.
  returned H. apply call_toString_Return_inv in Hx as (f0 & E0 & _).
  returned H. apply call_toString_Return_inv in Hx as (f1 & E1 & _).
  returned H. apply call_toString_Return_inv in Hx as (f4 & E4 & _).
  returned H. apply call_toString_Return_inv in Hx as (f5 & E5 & _).
  returned H. apply call_toString_Return_inv in Hx as (f6 & E6 & _).
  rewrite E0, E4, E5, E6 in H. cbn [call_toString bind] in H.
  returned H. apply throw_if_Return_inv, negb_false_iff in Hx. rename Hx into Htag.
  returned H. apply call_toString_Return_inv in Hx as (f2 & E2 & ->).
  returned H. apply throw_if_Return_inv, negb_false_iff in Hx. rename Hx into Hhash.
  returned H. rename Hx into Hurl.
  returned H. apply throw_if_Return_inv, negb_false_iff in Hx. subst.
  returned H. apply throw_if_Return_inv in Hx. rename Hx into Hexp.
  returned H. apply throw_if_Return_inv in Hx. rename Hx into Hsize.
  returned H. apply Array_from_Return_inv in Hx. rename Hx into E7.
  returned H. rename Hx into Hder.
  returned H. rename Hx into Hver.
  returned H. apply throw_if_Return_inv, negb_false_iff in Hx. subst.
  injection H as <-. split; [reflexivity|].
  unfold admits. repeat eexists; eauto.
Qed.

Lemma admits_body_Return (outputScript : Buffer)
  (pubKey : PublicKey Signature) (dateNow : Z) :
  admitted (decodeOutputScript outputScript) pubKey dateNow ->
  body outputScript pubKey dateNow = Return true.
Proof.
  intros (f0 & f1 & f2 & f4 & f5 & f6 & f7 & sg & E0 & E1 & E2 & E4 & E5
          & E6 & E7 & Htag & Hhash & Hurl & Hexp & Hsize & Hder & Hver).
  unfold evaluateCommitment_body. cbv zeta.
  rewrite E0, E1, E2, E4, E5, E6, E7. cbn [call_toString bind Array_from].
  rewrite Htag, Hhash, Hurl. cbn [negb throw_if bind].
  rewrite Hexp, Hsize. cbn [throw_if bind].
  rewrite Hder. cbn [bind]. rewrite Hver. reflexivity.
Qed.

(** The validator always returns, with [true] exactly for the admitted
    field sequences. *)
Lemma evaluateCommitment_returns (outputScript : Buffer)
  (pubKey : PublicKey Signature) (dateNow : Z) :
  exists b, evaluate outputScript pubKey dateNow = Return b.
Proof.
  unfold evaluateCommitment, try_catch.
  destruct (body outputScript pubKey dateNow); eauto.
Qed.

Lemma evaluateCommitment_true_iff (outputScript : Buffer)
  (pubKey : PublicKey Signature) (dateNow : Z) :
  evaluate outputScript pubKey dateNow = Return true
  <-> admitted (decodeOutputScript outputScript) pubKey dateNow.
Proof.
  unfold evaluateCommitment, try_catch. split.
  - destruct (body outputScript pubKey dateNow) as [b|e] eqn:E;
      [|discriminate].
    intros [= ->]. now apply body_Return_admits in E.
  - intros H. rewrite admits_body_Return by exact H. reflexivity.
Qed.

Lemma evaluateCommitment_false_iff (outputScript : Buffer)
  (pubKey : PublicKey Signature) (dateNow : Z) :
  evaluate outputScript pubKey dateNow = Return false
  <-> ~ admitted (decodeOutputScript outputScript) pubKey dateNow.
Proof.
  destruct (evaluateCommitment_returns outputScript pubKey dateNow) as [b Hb].
  rewrite <- evaluateCommitment_true_iff, Hb.
  destruct b; split; intros H; try reflexivity; try discriminate.
  - exfalso. now apply H.
Qed.

End Verdict.

(* ===================================================================== *)
(** ** Fields, hex text *)
(* ===================================================================== *)

Lemma field_present (fields : list Buffer) (k : nat) :
  k < List.length fields -> exists f, field fields k = Some f.
Proof.
  intros Hk. unfold field.
  destruct (nth_error fields k) as [f|] eqn:E; [eauto|].
  apply nth_error_None in E. lia.
Qed.

Lemma field_absent (fields : list Buffer) (k : nat) :
  List.length fields <= k -> field fields k = None.
Proof. intros Hk. now apply nth_error_None. Qed.

Lemma field_firstn (fields : list Buffer) (n k : nat) :
  k < n -> field (firstn n fields) k = field fields k.
Proof.
  intros Hk. unfold field. rewrite nth_error_firstn.
  apply Nat.ltb_lt in Hk. now rewrite Hk.
Qed.

Lemma hex_of_byte_lower (b : byte) : forallb isLowerHex (hex_of_byte b) = true.
Proof. destruct b; reflexivity. Qed.

Lemma toString_hex_lower (buf : Buffer) :
  forallb isLowerHex (toString_hex buf) = true.
Proof.
  induction buf as [|b buf IH]; [reflexivity|].
  change (toString_hex (b :: buf)) with (hex_of_byte b ++ toString_hex buf).
  now rewrite forallb_app, hex_of_byte_lower, IH.
Qed.

Lemma length_toString_hex (buf : Buffer) :
  List.length (toString_hex buf) = 2 * List.length buf.
Proof.
  induction buf as [|b buf IH]; [reflexivity|].
  change (toString_hex (b :: buf)) with (hex_of_byte b ++ toString_hex buf).
  rewrite length_app, IH. cbn. lia.
Qed.

(** The hex rendering of a buffer matches the pattern exactly when the
    buffer has 32 bytes. *)
Lemma isValidSHA256_toString_hex (buf : Buffer) :
  isValidSHA256 (toString_hex buf) = (List.length buf =? 32).
Proof.
  unfold isValidSHA256.
  rewrite toString_hex_lower, andb_true_r, length_toString_hex.
  destruct (Nat.eqb_spec (List.length buf) 32) as [E|E].
  - rewrite E. reflexivity.
  - apply Nat.eqb_neq. lia.
Qed.

Example uppercase_hex_refused :
  isValidSHA256
    (str "ABABABABABABABABABABABABABABABABABABABABABABABABABABABABABABABABAB")
  = false.
Proof. reflexivity. Qed.

Example protocol_tag_text :
  toString_utf8 (bytes "1UHRPYnMHPuQ5Tgb3AF8JXqwKkmZVy5hG")
  = UHRP_PROTOCOL_ADDRESS.
Proof. reflexivity. Qed.

(* ===================================================================== *)
(** ** Properties of [evaluateCommitment] *)
(* ===================================================================== *)

Section Properties.

Variable Signature : Type.
Variable Signature_fromDER : list byte -> Completion Signature.
Variable Hash_sha256 : list byte -> list byte.
Variable isValidURL : JSString -> Completion bool.

Local Abbreviation evaluate :=
  (evaluateCommitment Signature_fromDER Hash_sha256 isValidURL).
Local Abbreviation body :=
  (evaluateCommitment_body Signature_fromDER Hash_sha256 isValidURL).
Local Abbreviation admitted :=
  (admits Signature_fromDER Hash_sha256 isValidURL).

(** C1. A token that decodes to at least eight fields, whose field 0 is
    the protocol tag byte for byte, whose field 2 in hex matches the
    64-character pattern, whose field 4 passes the URL predicate, whose
    field 5 parses to an integer above the current unix time, whose field 6
    parses to an integer above zero, and whose field 7 is a DER signature
    that the public key verifies against the SHA-256 digest of the first
    seven field contents concatenated, is evaluated to [true]. *)
Theorem evaluateCommitment_admits_valid (outputScript : Buffer)
  (pubKey : PublicKey Signature) (dateNow : Z)
  (f2 f4 f5 f6 f7 : Buffer) (expiry fileSize : Z) (signature : Signature) :
  let fields := decodeOutputScript outputScript in
  8 <= List.length fields ->
  field fields 0 = Some (bytes "1UHRPYnMHPuQ5Tgb3AF8JXqwKkmZVy5hG") ->
  field fields 2 = Some f2 ->
  isValidSHA256 (toString_hex f2) = true ->
  field fields 4 = Some f4 ->
  isValidURL (toString_utf8 f4) = Return true ->
  field fields 5 = Some f5 ->
  parseInt (toString_utf8 f5) = Num expiry ->
  (dateNow / 1000 < expiry)%Z ->
  field fields 6 = Some f6 ->
  parseInt (toString_utf8 f6) = Num fileSize ->
  (0 < fileSize)%Z ->
  field fields 7 = Some f7 ->
  Signature_fromDER f7 = Return signature ->
  verify pubKey (Hash_sha256 (List.concat (firstn 7 fields))) signature
  = Return true ->
  evaluate outputScript pubKey dateNow = Return true.
Proof.
  intros fields Hlen E0 E2 Hhash E4 Hurl E5 Hexp Hlt E6 Hsize Hpos E7 Hder Hver.
  apply evaluateCommitment_true_iff. fold fields.
  destruct (field_present fields 1) as [f1 E1]; [lia|].
  exists (bytes "1UHRPYnMHPuQ5Tgb3AF8JXqwKkmZVy5hG"), f1, f2, f4, f5, f6, f7,
    signature.
  repeat split; try assumption.
  - rewrite Hexp. cbn. now apply Z.leb_gt.
  - rewrite Hsize. cbn. now apply Z.leb_gt.
Qed.

(** C8. A buffer that decodes to fewer than eight fields, the empty
    buffer among them, is evaluated to [false]; nothing is thrown. *)
Theorem evaluateCommitment_rejects_short (outputScript : Buffer)
  (pubKey : PublicKey Signature) (dateNow : Z) :
  List.length (decodeOutputScript outputScript) < 8 ->
  evaluate outputScript pubKey dateNow = Return false.
Proof.
  intros Hlen. apply evaluateCommitment_false_iff.
  intros (f0 & f1 & f2 & f4 & f5 & f6 & f7 & sg & _ & _ & _ & _ & _ & _
          & E7 & _).
  rewrite field_absent in E7 by lia. discriminate.
Qed.

(** C9. A token whose field 2, read as hexadecimal text, does not match
    the 64-character lowercase pattern is evaluated to [false]; and the
    hex text of a field 2 that is not exactly 32 bytes long never matches. *)
Theorem evaluateCommitment_rejects_bad_hash (outputScript : Buffer)
  (pubKey : PublicKey Signature) (dateNow : Z) (f2 : Buffer) :
  field (decodeOutputScript outputScript) 2 = Some f2 ->
  (isValidSHA256 (toString_hex f2) = false ->
   evaluate outputScript pubKey dateNow = Return false)
  /\ (List.length f2 <> 32 -> isValidSHA256 (toString_hex f2) = false).
Proof.
  intros E2. split.
  - intros Hbad. apply evaluateCommitment_false_iff.
    intros (f0 & f1 & f2' & f4 & f5 & f6 & f7 & sg & _ & _ & E2' & _ & _
            & _ & _ & _ & Hhash & _).
    rewrite E2 in E2'. injection E2' as <-. congruence.
  - intros Hlen. rewrite isValidSHA256_toString_hex. now apply Nat.eqb_neq.
Qed.

Lemma admits_first_eight (fields1 fields2 : list Buffer)
  (pubKey : PublicKey Signature) (dateNow : Z) :
  firstn 8 fields1 = firstn 8 fields2 ->
  admitted fields1 pubKey dateNow -> admitted fields2 pubKey dateNow.
Proof.
  intros H8.
  assert (Hf : forall k, k < 8 -> field fields1 k = field fields2 k).
  { intros k Hk. rewrite <- (field_firstn fields1 8 k Hk), H8.
    now apply field_firstn. }
  assert (H7 : array_slice0 fields1 7 = array_slice0 fields2 7).
  { unfold array_slice0.
    change 7 with (Nat.min 7 8). rewrite <- !firstn_firstn. now rewrite H8. }
  unfold admits. intros (f0 & f1 & f2 & f4 & f5 & f6 & f7 & sg & H).
  exists f0, f1, f2, f4, f5, f6, f7, sg.
  rewrite <- H7, <- !Hf by lia. exact H.
Qed.

(** C10. The verdict depends on the first eight decoded fields only: two
    buffers whose decoded sequences agree on fields 0 to 7 get the same
    verdict from the same key at the same time, whatever is decoded after
    the eighth field. *)
Theorem evaluateCommitment_first_eight (outputScript1 outputScript2 : Buffer)
  (pubKey : PublicKey Signature) (dateNow : Z) :
  firstn 8 (decodeOutputScript outputScript1)
  = firstn 8 (decodeOutputScript outputScript2) ->
  evaluate outputScript1 pubKey dateNow = evaluate outputScript2 pubKey dateNow.
Proof.
  intros H8.
  destruct (evaluateCommitment_returns _ Signature_fromDER Hash_sha256
              isValidURL outputScript1 pubKey dateNow) as [b1 Hb1].
  destruct (evaluateCommitment_returns _ Signature_fromDER Hash_sha256
              isValidURL outputScript2 pubKey dateNow) as [b2 Hb2].
  rewrite Hb1, Hb2. f_equal.
  destruct b1, b2; try reflexivity; exfalso.
  - apply evaluateCommitment_true_iff in Hb1.
    apply evaluateCommitment_false_iff in Hb2. apply Hb2.
    exact (admits_first_eight _ _ _ _ H8 Hb1).
  - apply evaluateCommitment_true_iff in Hb2.
    apply evaluateCommitment_false_iff in Hb1. apply Hb1.
    exact (admits_first_eight _ _ _ _ (eq_sym H8) Hb2).
Qed.

(** C4. The signature check is the construction of the design document:
    once the first six checks have passed, the verdict is the boolean of
    [spec_SignatureVerifier] on the first seven field contents, the bytes
    of field 7 and the key.  The message is their plain concatenation, it
    is digested with [Hash_sha256], field 7 is parsed as DER, a parse
    failure making the verdict [false], and the key's answer decides. *)
Theorem evaluateCommitment_signature_check (outputScript : Buffer)
  (pubKey : PublicKey Signature) (dateNow : Z)
  (f0 f2 f4 f5 f6 f7 : Buffer) :
  let fields := decodeOutputScript outputScript in
  8 <= List.length fields ->
  field fields 0 = Some f0 ->
  string_eqb (toString_utf8 f0) UHRP_PROTOCOL_ADDRESS = true ->
  field fields 2 = Some f2 ->
  isValidSHA256 (toString_hex f2) = true ->
  field fields 4 = Some f4 ->
  isValidURL (toString_utf8 f4) = Return true ->
  field fields 5 = Some f5 ->
  js_le (parseInt (toString_utf8 f5)) (Num (dateNow / 1000)) = false ->
  field fields 6 = Some f6 ->
  js_le (parseInt (toString_utf8 f6)) (Num 0) = false ->
  field fields 7 = Some f7 ->
  evaluate outputScript pubKey dateNow
  = Return (spec_SignatureVerifier Signature_fromDER Hash_sha256
              (firstn 7 fields) f7 pubKey).
Proof.
  intros fields Hlen E0 Htag E2 Hhash E4 Hurl E5 Hexp E6 Hsize E7.
  destruct (field_present fields 1) as [f1 E1]; [lia|].
  destruct (spec_SignatureVerifier Signature_fromDER Hash_sha256
              (firstn 7 fields) f7 pubKey) eqn:Hspec.
  - apply evaluateCommitment_true_iff. fold fields.
    unfold spec_SignatureVerifier in Hspec. cbv zeta in Hspec.
    destruct (Signature_fromDER f7) as [sg|e] eqn:Hder; [|discriminate].
    destruct (verify pubKey _ sg) as [r|e] eqn:Hver; [|discriminate].
    subst r. exists f0, f1, f2, f4, f5, f6, f7, sg. repeat split; assumption.
  - apply evaluateCommitment_false_iff. fold fields.
    intros (f0' & f1' & f2' & f4' & f5' & f6' & f7' & sg & _ & _ & _ & _
            & _ & _ & E7' & _ & _ & _ & _ & _ & Hder & Hver).
    rewrite E7 in E7'. injection E7' as <-.
    unfold spec_SignatureVerifier in Hspec. cbv zeta in Hspec.
    unfold Buffer_concat, array_slice0 in Hver.
    rewrite Hder, Hver in Hspec. discriminate.
Qed.

(** Malformed DER in field 7 is a [false] verdict. *)
Lemma evaluateCommitment_rejects_malformed_DER (outputScript : Buffer)
  (pubKey : PublicKey Signature) (dateNow : Z) (f7 : Buffer) (e : Exception) :
  field (decodeOutputScript outputScript) 7 = Some f7 ->
  Signature_fromDER f7 = Throw e ->
  evaluate outputScript pubKey dateNow = Return false.
Proof.
  intros E7 Hder. apply evaluateCommitment_false_iff.
  intros (f0' & f1' & f2' & f4' & f5' & f6' & f7' & sg & _ & _ & _ & _
          & _ & _ & E7' & _ & _ & _ & _ & _ & Hder' & _).
  rewrite E7 in E7'. injection E7' as <-. congruence.
Qed.

(** C5, as the program has it. [evaluateCommitment] returns a boolean for
    every buffer, key and clock reading, and never throws: whatever is
    thrown inside the [try] block, by a missing field, a failed check, the
    URL predicate, the DER parser or the key, becomes the result [false]. *)
Theorem evaluateCommitment_never_throws (outputScript : Buffer)
  (pubKey : PublicKey Signature) (dateNow : Z) :
  exists b : bool,
    evaluate outputScript pubKey dateNow = Return b
    /\ (forall e, body outputScript pubKey dateNow = Throw e -> b = false).
Proof.
  unfold evaluateCommitment, try_catch.
  destruct (body outputScript pubKey dateNow) as [b|e].
  - exists b. split; [reflexivity | discriminate].
  - exists false. split; reflexivity.
Qed.

(** C6. The expiry comparison is strict: a token whose field 5 parses to
    exactly the current unix time is evaluated to [false], and one whose
    field 5 parses to the current time plus one is evaluated to [true] when
    all the other checks pass, the signature included. *)
Theorem evaluateCommitment_expiry_boundary (outputScript : Buffer)
  (pubKey : PublicKey Signature) (dateNow : Z) (f5 : Buffer) :
  let fields := decodeOutputScript outputScript in
  field fields 5 = Some f5 ->
  (parseInt (toString_utf8 f5) = Num (dateNow / 1000) ->
   evaluate outputScript pubKey dateNow = Return false)
  /\ (parseInt (toString_utf8 f5) = Num (dateNow / 1000 + 1) ->
      forall (f2 f4 f6 f7 : Buffer) (fileSize : Z) (signature : Signature),
        8 <= List.length fields ->
        field fields 0 = Some (bytes "1UHRPYnMHPuQ5Tgb3AF8JXqwKkmZVy5hG") ->
        field fields 2 = Some f2 ->
        isValidSHA256 (toString_hex f2) = true ->
        field fields 4 = Some f4 ->
        isValidURL (toString_utf8 f4) = Return true ->
        field fields 6 = Some f6 ->
        parseInt (toString_utf8 f6) = Num fileSize ->
        (0 < fileSize)%Z ->
        field fields 7 = Some f7 ->
        Signature_fromDER f7 = Return signature ->
        verify pubKey (Hash_sha256 (List.concat (firstn 7 fields))) signature
        = Return true ->
        evaluate outputScript pubKey dateNow = Return true).
Proof.
  intros fields E5. split.
  - intros Hnow. apply evaluateCommitment_false_iff. fold fields.
    intros (f0' & f1' & f2' & f4' & f5' & f6' & f7' & sg & _ & _ & _ & _
            & E5' & _ & _ & _ & _ & _ & Hexp & _).
    rewrite E5 in E5'. injection E5' as <-.
    rewrite Hnow in Hexp. cbn in Hexp.
    rewrite Z.leb_refl in Hexp. discriminate.
  - intros Hnext f2 f4 f6 f7 fileSize sg Hlen E0 E2 Hhash E4 Hurl E6 Hsize
           Hpos E7 Hder Hver.
    apply evaluateCommitment_true_iff. fold fields.
    destruct (field_present fields 1) as [f1 E1]; [lia|].
    exists (bytes "1UHRPYnMHPuQ5Tgb3AF8JXqwKkmZVy5hG"), f1, f2, f4, f5, f6,
      f7, sg.
    repeat split; try assumption.
    + rewrite Hnext. cbn. apply Z.leb_gt. lia.
    + rewrite Hsize. cbn. now apply Z.leb_gt.
Qed.

(** C3 fails on the program. The two comparisons let [NaN] through: when
    [parseInt] yields [NaN] on the text of field 5 or of field 6, that
    field stops nothing, and the verdict is [true] as soon as the remaining
    checks pass, the signature over the seven fields included. *)
Theorem evaluateCommitment_admits_NaN (outputScript : Buffer)
  (pubKey : PublicKey Signature) (dateNow : Z)
  (f2 f4 f5 f6 f7 : Buffer) (signature : Signature) :
  let fields := decodeOutputScript outputScript in
  8 <= List.length fields ->
  field fields 0 = Some (bytes "1UHRPYnMHPuQ5Tgb3AF8JXqwKkmZVy5hG") ->
  field fields 2 = Some f2 ->
  isValidSHA256 (toString_hex f2) = true ->
  field fields 4 = Some f4 ->
  isValidURL (toString_utf8 f4) = Return true ->
  field fields 5 = Some f5 ->
  field fields 6 = Some f6 ->
  parseInt (toString_utf8 f5) = NaN
  \/ js_le (parseInt (toString_utf8 f5)) (Num (dateNow / 1000)) = false ->
  parseInt (toString_utf8 f6) = NaN
  \/ js_le (parseInt (toString_utf8 f6)) (Num 0) = false ->
  field fields 7 = Some f7 ->
  Signature_fromDER f7 = Return signature ->
  verify pubKey (Hash_sha256 (List.concat (firstn 7 fields))) signature
  = Return true ->
  evaluate outputScript pubKey dateNow = Return true.
Proof.
  intros fields Hlen E0 E2 Hhash E4 Hurl E5 E6 H5 H6 E7 Hder Hver.
  apply evaluateCommitment_true_iff. fold fields.
  destruct (field_present fields 1) as [f1 E1]; [lia|].
  exists (bytes "1UHRPYnMHPuQ5Tgb3AF8JXqwKkmZVy5hG"), f1, f2, f4, f5, f6, f7,
    signature.
  repeat split; try assumption.
  - destruct H5 as [-> | H5]; [reflexivity | exact H5].
  - destruct H6 as [-> | H6]; [reflexivity | exact H6].
Qed.

End Properties.

(* ===================================================================== *)
(** ** A length byte that claims more than remains *)
(* ===================================================================== *)

Lemma overruns_from_step (buf : Buffer) (i : nat) :
  i < List.length buf ->
  overruns_from buf i =
  if List.length buf <? i + 1 + byte_at buf i then true
  else overruns_from buf (i + 1 + byte_at buf i).
Proof.
  intros Hi. rewrite overruns_from_equation_1 at 1.
  destruct (lt_dec i (List.length buf)) as [Hlt|Hn]; [reflexivity | contradiction].
Qed.

Lemma overruns_from_end (buf : Buffer) (i : nat) :
  List.length buf <= i -> overruns_from buf i = false.
Proof.
  intros Hi. rewrite overruns_from_equation_1.
  destruct (lt_dec i (List.length buf)) as [Hlt|Hn]; [lia | reflexivity].
Qed.

Lemma slice_to_the_end (buf : Buffer) (start finish : nat) :
  List.length buf <= finish -> slice buf start finish = skipn start buf.
Proof.
  intros H. unfold slice. apply firstn_all2. rewrite length_skipn. lia.
Qed.

(** From any cursor: the overrunning length byte is the last one read, and
    its field is what is left of the buffer. *)
Lemma decode_loop_overrun (buf : Buffer) (i : nat) :
  overruns_from buf i = true ->
  forall acc, exists fs j,
    j < List.length buf
    /\ List.length buf < j + 1 + byte_at buf j
    /\ decode_loop buf i acc = acc ++ fs ++ [skipn (j + 1) buf].
Proof.
  revert i.
  apply (cursor_ind buf
           (fun i => overruns_from buf i = true ->
                     forall acc, exists fs j,
                       j < List.length buf
                       /\ List.length buf < j + 1 + byte_at buf j
                       /\ decode_loop buf i acc
                          = acc ++ fs ++ [skipn (j + 1) buf])).
  - intros i Hi H. rewrite overruns_from_end in H by assumption. discriminate.
  - intros i Hi IH H acc. rewrite overruns_from_step in H by assumption.
    rewrite decode_loop_step by assumption.
    destruct (Nat.ltb_spec (List.length buf) (i + 1 + byte_at buf i))
      as [Hover|Hfit].
    + exists [], i. repeat split; try assumption.
      rewrite decode_loop_end by lia.
      now rewrite slice_to_the_end by lia.
    + destruct (IH H (acc ++ [slice buf (i + 1) (i + 1 + byte_at buf i)]))
        as (fs & j & Hj & Hov & Hdec).
      exists (slice buf (i + 1) (i + 1 + byte_at buf i) :: fs), j.
      repeat split; try assumption.
      rewrite Hdec, <- app_assoc. reflexivity.
Qed.

Section Overrun.

Variable Signature : Type.
Variable Signature_fromDER : list byte -> Completion Signature.
Variable Hash_sha256 : list byte -> list byte.
Variable isValidURL : JSString -> Completion bool.

(** C2, as the program has it. When some length byte claims more bytes
    than remain, decoding does not fail: that length byte, at position [j],
    is the last one read, and its field is clipped to the bytes that
    remain after it, fewer than it claims.  [evaluateCommitment] returns
    [false] for such a buffer when the clipped field is one of the first
    seven. *)
Theorem decodeOutputScript_clips_overrun (outputScript : Buffer)
  (pubKey : PublicKey Signature) (dateNow : Z) :
  overruns outputScript = true ->
  exists (fs : list Buffer) (j : nat),
    j < List.length outputScript
    /\ decodeOutputScript outputScript = fs ++ [skipn (j + 1) outputScript]
    /\ List.length (skipn (j + 1) outputScript) < byte_at outputScript j
    /\ (List.length fs < 7 ->
        evaluateCommitment Signature_fromDER Hash_sha256 isValidURL
                           outputScript pubKey dateNow = Return false).
Proof.
  intros Hover.
  destruct (decode_loop_overrun outputScript 0 Hover [])
    as (fs & j & Hj & Hov & Hdec).
  exists fs, j. repeat split.
  - assumption.
  - exact Hdec.
  - rewrite length_skipn. lia.
  - intros Hfs. apply evaluateCommitment_false_iff.
    intros (f0 & f1 & f2 & f4 & f5 & f6 & f7 & sg & _ & _ & _ & _ & _ & _
            & E7 & _).
    unfold decodeOutputScript in E7. rewrite Hdec in E7.
    rewrite field_absent in E7; [discriminate|].
    rewrite !length_app. cbn [List.length]. unfold Buffer in *. lia.
Qed.

End Overrun.

(* ===================================================================== *)
(** ** The theorems on concrete tokens *)
(* ===================================================================== *)

Lemma decodeOutputScript_clips_overrun_witness :
  exists (fs : list Buffer) (j : nat),
    j < List.length [x05; x41]
    /\ decodeOutputScript [x05; x41] = fs ++ [skipn (j + 1) [x05; x41]]
    /\ List.length (skipn (j + 1) [x05; x41]) < byte_at [x05; x41] j
    /\ (List.length fs < 7 ->
        Fixture.evaluate [x05; x41] (Fixture.pubKey x2a) Fixture.dateNow
        = Return false).
Proof.
  apply (decodeOutputScript_clips_overrun Fixture.Signature
           Fixture.Signature_fromDER
           Fixture.Hash_sha256 Fixture.isValidURL
           [x05; x41] (Fixture.pubKey x2a) Fixture.dateNow).
  reflexivity.
Defined.

(** C2 as stated fails: the signature field of this token announces 80
    bytes where 5 remain; decoding returns the eight fields, the last one
    clipped, and the token is evaluated to [true]. *)
Lemma overrun_token_is_admitted :
  overruns Fixture.overrunToken = true
  /\ decodeOutputScript Fixture.overrunToken
     = Fixture.tokenFields "1700001000" "1024"
  /\ Fixture.evaluate Fixture.overrunToken (Fixture.pubKey x2a)
                      Fixture.dateNow = Return true.
Proof. vm_compute. repeat split. Qed.

(** Closes a side condition on a concrete token by evaluation. *)
Ltac by_evaluation :=
  solve [ reflexivity
        | vm_compute; reflexivity
        | vm_compute; repeat constructor
        | vm_compute; discriminate ].

Lemma evaluateCommitment_admits_valid_witness :
  Fixture.evaluate (Fixture.token "1700001000" "1024") (Fixture.pubKey x2a)
                   Fixture.dateNow = Return true.
Proof.
  apply (evaluateCommitment_admits_valid Fixture.Signature
           Fixture.Signature_fromDER Fixture.Hash_sha256 Fixture.isValidURL
           (Fixture.token "1700001000" "1024") (Fixture.pubKey x2a)
           Fixture.dateNow
           Fixture.VALID_HASH (bytes "https://valid.url")
           (bytes "1700001000") (bytes "1024")
           (Fixture.signCommitment x2a
              (Fixture.messageFields "1700001000" "1024"))
           1700001000%Z 1024%Z
           (Fixture.sign x2a
              (Fixture.Hash_sha256
                 (List.concat (Fixture.messageFields "1700001000" "1024")))));
    by_evaluation.
Defined.

Lemma evaluateCommitment_signature_check_witness :
  Fixture.evaluate (Fixture.token "1700001000" "1024") (Fixture.pubKey x2b)
                   Fixture.dateNow
  = Return (spec_SignatureVerifier Fixture.Signature_fromDER
              Fixture.Hash_sha256
              (firstn 7 (decodeOutputScript
                           (Fixture.token "1700001000" "1024")))
              (Fixture.signCommitment x2a
                 (Fixture.messageFields "1700001000" "1024"))
              (Fixture.pubKey x2b)).
Proof.
  apply (evaluateCommitment_signature_check Fixture.Signature
           Fixture.Signature_fromDER Fixture.Hash_sha256 Fixture.isValidURL
           (Fixture.token "1700001000" "1024") (Fixture.pubKey x2b)
           Fixture.dateNow
           (bytes "1UHRPYnMHPuQ5Tgb3AF8JXqwKkmZVy5hG")
           Fixture.VALID_HASH (bytes "https://valid.url")
           (bytes "1700001000") (bytes "1024")
           (Fixture.signCommitment x2a
              (Fixture.messageFields "1700001000" "1024")));
    by_evaluation.
Defined.

Lemma evaluateCommitment_expiry_boundary_witness :
  Fixture.evaluate (Fixture.token "1700000000" "1024") (Fixture.pubKey x2a)
                   Fixture.dateNow = Return false
  /\ Fixture.evaluate (Fixture.token "1700000001" "1024") (Fixture.pubKey x2a)
                      Fixture.dateNow = Return true.
Proof.
  split.
  - apply (proj1 (evaluateCommitment_expiry_boundary Fixture.Signature
             Fixture.Signature_fromDER Fixture.Hash_sha256 Fixture.isValidURL
             (Fixture.token "1700000000" "1024") (Fixture.pubKey x2a)
             Fixture.dateNow (bytes "1700000000") eq_refl)).
    by_evaluation.
  - apply (proj2 (evaluateCommitment_expiry_boundary Fixture.Signature
             Fixture.Signature_fromDER Fixture.Hash_sha256 Fixture.isValidURL
             (Fixture.token "1700000001" "1024") (Fixture.pubKey x2a)
             Fixture.dateNow (bytes "1700000001") eq_refl)
           eq_refl
           Fixture.VALID_HASH (bytes "https://valid.url") (bytes "1024")
           (Fixture.signCommitment x2a
              (Fixture.messageFields "1700000001" "1024"))
           1024%Z
           (Fixture.sign x2a
              (Fixture.Hash_sha256
                 (List.concat (Fixture.messageFields "1700000001" "1024")))));
      by_evaluation.
Defined.

Lemma evaluateCommitment_rejects_short_witness :
  decodeOutputScript [] = []
  /\ Fixture.evaluate [] (Fixture.pubKey x2a) Fixture.dateNow = Return false
  /\ Fixture.evaluate
       (createOutputScript (Fixture.messageFields "1700001000" "1024"))
       (Fixture.pubKey x2a) Fixture.dateNow = Return false.
Proof.
  split; [reflexivity | split];
    apply (evaluateCommitment_rejects_short Fixture.Signature
             Fixture.Signature_fromDER Fixture.Hash_sha256 Fixture.isValidURL);
    by_evaluation.
Defined.

Lemma evaluateCommitment_rejects_bad_hash_witness :
  Fixture.evaluate Fixture.invalidHashToken (Fixture.pubKey x2a)
                   Fixture.dateNow = Return false
  /\ isValidSHA256 (toString_hex (bytes "invalidhash")) = false.
Proof.
  split.
  - apply (proj1 (evaluateCommitment_rejects_bad_hash Fixture.Signature
             Fixture.Signature_fromDER Fixture.Hash_sha256 Fixture.isValidURL
             Fixture.invalidHashToken (Fixture.pubKey x2a) Fixture.dateNow
             (bytes "invalidhash") eq_refl)).
    by_evaluation.
  - apply (proj2 (evaluateCommitment_rejects_bad_hash Fixture.Signature
             Fixture.Signature_fromDER Fixture.Hash_sha256 Fixture.isValidURL
             Fixture.invalidHashToken (Fixture.pubKey x2a) Fixture.dateNow
             (bytes "invalidhash") eq_refl)).
    by_evaluation.
Defined.

Lemma evaluateCommitment_first_eight_witness :
  Fixture.evaluate (Fixture.token "1700001000" "1024") (Fixture.pubKey x2a)
                   Fixture.dateNow
  = Fixture.evaluate Fixture.trailingToken (Fixture.pubKey x2a)
                     Fixture.dateNow.
Proof.
  apply (evaluateCommitment_first_eight Fixture.Signature
           Fixture.Signature_fromDER Fixture.Hash_sha256 Fixture.isValidURL).
  by_evaluation.
Defined.

Example nine_fields_decoded :
  List.length (decodeOutputScript Fixture.trailingToken) = 9.
Proof. reflexivity. Qed.

Lemma evaluateCommitment_admits_NaN_witness :
  parseInt (toString_utf8 (bytes "abc")) = NaN
  /\ Fixture.evaluate (Fixture.token "abc" "1024") (Fixture.pubKey x2a)
                      Fixture.dateNow = Return true
  /\ Fixture.evaluate (Fixture.token "1700001000" "abc") (Fixture.pubKey x2a)
                      Fixture.dateNow = Return true.
Proof.
  split; [reflexivity | split].
  - apply (evaluateCommitment_admits_NaN Fixture.Signature
             Fixture.Signature_fromDER Fixture.Hash_sha256 Fixture.isValidURL
             (Fixture.token "abc" "1024") (Fixture.pubKey x2a)
             Fixture.dateNow
             Fixture.VALID_HASH (bytes "https://valid.url")
             (bytes "abc") (bytes "1024")
             (Fixture.signCommitment x2a (Fixture.messageFields "abc" "1024"))
             (Fixture.sign x2a
                (Fixture.Hash_sha256
                   (List.concat (Fixture.messageFields "abc" "1024")))));
      by_evaluation.
  - apply (evaluateCommitment_admits_NaN Fixture.Signature
             Fixture.Signature_fromDER Fixture.Hash_sha256 Fixture.isValidURL
             (Fixture.token "1700001000" "abc") (Fixture.pubKey x2a)
             Fixture.dateNow
             Fixture.VALID_HASH (bytes "https://valid.url")
             (bytes "1700001000") (bytes "abc")
             (Fixture.signCommitment x2a
                (Fixture.messageFields "1700001000" "abc"))
             (Fixture.sign x2a
                (Fixture.Hash_sha256
                   (List.concat (Fixture.messageFields "1700001000" "abc")))));
      by_evaluation.
Defined.

(** C5 as stated fails: a token followed by a length byte that overruns
    the buffer, and a token whose expiry does not parse, are both
    evaluated to [true]. *)
Lemma failures_not_converted_to_false :
  overruns Fixture.trailingToken = true
  /\ Fixture.evaluate Fixture.trailingToken (Fixture.pubKey x2a)
                      Fixture.dateNow = Return true
  /\ parseInt (toString_utf8 (bytes "not a number")) = NaN
  /\ Fixture.evaluate (Fixture.token "not a number" "1024")
                      (Fixture.pubKey x2a) Fixture.dateNow = Return true.
Proof. vm_compute. repeat split. Qed.

(** The rejections of the test suite. *)
Example invalid_protocol_rejected :
  Fixture.evaluate
    (createOutputScript
       [bytes "invalid_protocol"; bytes "host"; Fixture.VALID_HASH;
        bytes "advertise"; bytes "https://valid.url"; bytes "1700001000";
        bytes "1024";
        Fixture.signCommitment x2a (Fixture.messageFields "1700001000" "1024")])
    (Fixture.pubKey x2a) Fixture.dateNow = Return false.
Proof. vm_compute. reflexivity. Qed.

Example invalid_URL_rejected :
  Fixture.evaluate
    (createOutputScript
       [bytes "1UHRPYnMHPuQ5Tgb3AF8JXqwKkmZVy5hG"; bytes "host";
        Fixture.VALID_HASH; bytes "advertise"; bytes "invalid-url";
        bytes "1700001000"; bytes "1024";
        Fixture.signCommitment x2a (Fixture.messageFields "1700001000" "1024")])
    (Fixture.pubKey x2a) Fixture.dateNow = Return false.
Proof. vm_compute. reflexivity. Qed.

Example malformed_DER_rejected :
  Fixture.evaluate
    (createOutputScript
       (Fixture.messageFields "1700001000" "1024" ++ [[x00; x00]]))
    (Fixture.pubKey x2a) Fixture.dateNow = Return false.
Proof. vm_compute. reflexivity. Qed.

(* ===================================================================== *)
(** ** More on the decoder: framing *)
(* ===================================================================== *)

Lemma slice_app_shift (pre buf : Buffer) (a b : nat) :
  slice (pre ++ buf) (List.length pre + a) (List.length pre + b) = slice buf a b.
Proof.
  unfold slice. rewrite skipn_app.
  rewrite skipn_all2 by lia. cbn [app].
  replace (List.length pre + a - List.length pre) with a by lia.
  replace (List.length pre + b - (List.length pre + a)) with (b - a) by lia.
  reflexivity.
Qed.

Lemma byte_at_app_shift (pre buf : Buffer) (i : nat) :
  byte_at (pre ++ buf) (List.length pre + i) = byte_at buf i.
Proof.
  unfold byte_at. rewrite app_nth2 by lia.
  now replace (List.length pre + i - List.length pre) with i by lia.
Qed.

(** The loop does not look behind its cursor. *)
Lemma decode_loop_shift (pre buf : Buffer) (i : nat) :
  forall acc,
    decode_loop (pre ++ buf) (List.length pre + i) acc = decode_loop buf i acc.
Proof.
  revert i.
  apply (cursor_ind buf
           (fun i => forall acc,
                decode_loop (pre ++ buf) (List.length pre + i) acc
                = decode_loop buf i acc)).
  - intros i Hi acc.
    rewrite !decode_loop_end; [reflexivity | lia | rewrite length_app; lia].
  - intros i Hi IH acc.
    rewrite (decode_loop_step (pre ++ buf)) by (rewrite length_app; lia).
    rewrite (decode_loop_step buf) by assumption.
    rewrite byte_at_app_shift.
    replace (List.length pre + i + 1 + byte_at buf i)
      with (List.length pre + (i + 1 + byte_at buf i)) by lia.
    replace (List.length pre + i + 1) with (List.length pre + (i + 1)) by lia.
    rewrite slice_app_shift. apply IH.
Qed.

Lemma decodeOutputScript_cons_field (f : Buffer) (rest : Buffer) :
  List.length f <= 255 ->
  decodeOutputScript (byte_of_length (List.length f) :: f ++ rest)
  = f :: decodeOutputScript rest.
Proof.
  intros Hf. unfold decodeOutputScript.
  set (lb := byte_of_length (List.length f)).
  assert (Hat : byte_at (lb :: f ++ rest) 0 = List.length f).
  { unfold byte_at. cbn. now apply to_nat_byte_of_length. }
  rewrite decode_loop_step by (cbn; lia). rewrite Hat.
  assert (Hs : slice (lb :: f ++ rest) (0 + 1) (0 + 1 + List.length f) = f).
  { exact (slice_middle [lb] f rest). }
  rewrite Hs, decode_loop_acc. cbn [app]. f_equal.
  change (lb :: f ++ rest) with ((lb :: f) ++ rest).
  replace (0 + 1 + List.length f) with (List.length (lb :: f) + 0)
    by (cbn; lia).
  apply decode_loop_shift.
Qed.

Lemma decodeOutputScript_app_fields (fields : list Buffer) (rest : Buffer) :
  encodable fields ->
  decodeOutputScript (createOutputScript fields ++ rest)
  = fields ++ decodeOutputScript rest.
Proof.
  induction 1 as [|f fs Hf Hfs IH]; [reflexivity|].
  rewrite createOutputScript_cons. cbn [app]. rewrite <- app_assoc.
  rewrite decodeOutputScript_cons_field by assumption.
  now rewrite IH.
Qed.

(** X1. Decoding splits off an encoded prefix: the fields written by
    [createOutputScript], each of at most 255 bytes, are read back first
    and the decoder then carries on with whatever bytes follow. *)
Theorem decodeOutputScript_app (fields : list Buffer) (rest : Buffer) :
  encodable fields ->
  decodeOutputScript (createOutputScript fields ++ rest)
  = fields ++ decodeOutputScript rest.
Proof. apply decodeOutputScript_app_fields. Qed.

Lemma decodeOutputScript_app_witness :
  decodeOutputScript
    (createOutputScript [bytes "ab"; bytes ""] ++ [x01; x7a; x09])
  = [bytes "ab"; bytes ""] ++ decodeOutputScript [x01; x7a; x09].
Proof.
  apply decodeOutputScript_app.
  unfold encodable. repeat constructor; vm_compute; discriminate.
Defined.

Lemma length_slice (buf : Buffer) (a b : nat) :
  List.length (slice buf a b) = Nat.min (b - a) (List.length buf - a).
Proof. unfold slice. now rewrite length_firstn, length_skipn. Qed.

Lemma decode_loop_cons (buf : Buffer) (i : nat) :
  i < List.length buf ->
  decode_loop buf i []
  = slice buf (i + 1) (i + 1 + byte_at buf i)
      :: decode_loop buf (i + 1 + byte_at buf i) [].
Proof.
  intros Hi. rewrite decode_loop_step by assumption.
  now rewrite decode_loop_acc.
Qed.

Lemma byte_at_le_255 (buf : Buffer) (i : nat) : byte_at buf i <= 255.
Proof.
  unfold byte_at. pose proof (Byte.to_nat_bounded (nth i buf x00)). lia.
Qed.

Lemma decode_loop_accounts (buf : Buffer) (i : nat) :
  List.length (decode_loop buf i [])
  + List.length (List.concat (decode_loop buf i []))
  = List.length buf - i.
Proof.
  revert i.
  apply (cursor_ind buf
           (fun i => List.length (decode_loop buf i [])
                     + List.length (List.concat (decode_loop buf i []))
                     = List.length buf - i)).
  - intros i Hi. rewrite decode_loop_end by assumption. cbn. lia.
  - intros i Hi IH. rewrite decode_loop_cons by assumption.
    cbn [List.length List.concat]. rewrite length_app, length_slice.
    unfold Buffer in *. lia.
Qed.


Lemma decode_loop_bounded (buf : Buffer) (i : nat) :
  encodable (decode_loop buf i []).
Proof.
  revert i.
  apply (cursor_ind buf (fun i => encodable (decode_loop buf i []))).
  - intros i Hi. rewrite decode_loop_end by assumption. constructor.
  - intros i Hi IH. rewrite decode_loop_cons by assumption.
    constructor; [|exact IH].
    rewrite length_slice. pose proof (byte_at_le_255 buf i). lia.
Qed.

(** X3. Every field that the decoder returns has at most 255 bytes, and
    it returns at most as many fields as the buffer has bytes. *)
Theorem decodeOutputScript_fields_bounded (outputScript : Buffer) :
  encodable (decodeOutputScript outputScript)
  /\ List.length (decodeOutputScript outputScript)
     <= List.length outputScript.
Proof.
  split.
  - apply decode_loop_bounded.
  - unfold decodeOutputScript.
    pose proof (decode_loop_accounts outputScript 0). lia.
Qed.

Lemma byte_of_length_to_nat (b : byte) : byte_of_length (Byte.to_nat b) = b.
Proof.
  unfold byte_of_length.
  pose proof (Byte.to_nat_bounded b).
  rewrite Nat.mod_small by lia. now rewrite Byte.of_to_nat.
Qed.

Lemma skipn_nth (l : Buffer) (i : nat) :
  i < List.length l -> skipn i l = nth i l x00 :: skipn (S i) l.
Proof.
  revert i. induction l as [|b l IH]; intros i Hi; [cbn in Hi; lia|].
  destruct i as [|i]; [reflexivity|].
  cbn [skipn nth]. apply IH. cbn in Hi. lia.
Qed.

Lemma skipn_cursor (buf : Buffer) (i : nat) :
  i < List.length buf ->
  skipn i buf
  = nth i buf x00
      :: slice buf (i + 1) (i + 1 + byte_at buf i)
      ++ skipn (i + 1 + byte_at buf i) buf.
Proof.
  intros Hi. rewrite skipn_nth by assumption. f_equal.
  unfold slice.
  replace (i + 1 + byte_at buf i - (i + 1)) with (byte_at buf i) by lia.
  replace (i + 1 + byte_at buf i) with (byte_at buf i + (i + 1)) by lia.
  rewrite <- (skipn_skipn (byte_at buf i) (i + 1) buf), firstn_skipn.
  now replace (i + 1) with (S i) by lia.
Qed.

Lemma reencode_from_cursor (buf : Buffer) (i : nat) :
  i <= List.length buf ->
  overruns_from buf i = false ->
  createOutputScript (decode_loop buf i []) = skipn i buf.
Proof.
  revert i.
  apply (cursor_ind buf
           (fun i => i <= List.length buf ->
                     overruns_from buf i = false ->
                     createOutputScript (decode_loop buf i []) = skipn i buf)).
  - intros i Hi Hle _. rewrite decode_loop_end by assumption.
    rewrite skipn_all2 by assumption. reflexivity.
  - intros i Hi IH _ Hno. rewrite overruns_from_step in Hno by assumption.
    destruct (Nat.ltb_spec (List.length buf) (i + 1 + byte_at buf i))
      as [Hover|Hfit]; [discriminate|].
    rewrite decode_loop_cons, createOutputScript_cons by assumption.
    rewrite (IH Hfit Hno), length_slice.
    replace (Nat.min (i + 1 + byte_at buf i - (i + 1))
                     (List.length buf - (i + 1)))
      with (byte_at buf i) by lia.
    unfold byte_at at 1. rewrite byte_of_length_to_nat.
    symmetry. now apply skipn_cursor.
Qed.

Lemma createOutputScript_app (fs gs : list Buffer) :
  createOutputScript (fs ++ gs) = createOutputScript fs ++ createOutputScript gs.
Proof. unfold createOutputScript. apply flat_map_app. Qed.

(** X4. Writing the decoded fields again with [createOutputScript] gives
    back the buffer exactly when no length byte of the buffer claims more
    bytes than remain after it. *)
Theorem reencode_iff_no_overrun (outputScript : Buffer) :
  createOutputScript (decodeOutputScript outputScript) = outputScript
  <-> overruns outputScript = false.
Proof.
  split.
  - intros Hre. destruct (overruns outputScript) eqn:Hover; [exfalso|reflexivity].
    destruct (decode_loop_overrun outputScript 0 Hover [])
      as (fs & j & Hj & Hov & Hdec).
    cbn [app] in Hdec. unfold decodeOutputScript in Hre.
    rewrite Hdec, createOutputScript_app in Hre.
    set (last := skipn (j + 1) outputScript) in *.
    change (createOutputScript [last])
      with (byte_of_length (List.length last) :: last ++ []) in Hre.
    rewrite app_nil_r in Hre.
    assert (Hlast : List.length last = List.length outputScript - (j + 1)).
    { unfold last. now rewrite length_skipn. }
    assert (Hpre : List.length (createOutputScript fs) = j).
    { apply (f_equal (@List.length byte)) in Hre.
      rewrite length_app in Hre. cbn [List.length] in Hre.
      unfold Buffer in *. lia. }
    assert (Hat : byte_at outputScript j = List.length last).
    { unfold byte_at. rewrite <- Hre at 1.
      rewrite app_nth2 by (unfold Buffer in *; lia).
      rewrite Hpre, Nat.sub_diag. cbn [nth].
      apply to_nat_byte_of_length.
      pose proof (byte_at_le_255 outputScript j). lia. }
    lia.
  - intros Hno. unfold decodeOutputScript.
    rewrite reencode_from_cursor; [reflexivity | lia | exact Hno].
Qed.

(* ===================================================================== *)
(** ** UTF-8 text that is plain ASCII *)
(* ===================================================================== *)

Lemma N_le_lor_l (a b : N) : (a <= N.lor a b)%N.
Proof.
  assert (Hdisj : N.land a (N.ldiff b a) = 0%N).
  { apply N.bits_inj. intros n.
    rewrite N.land_spec, N.ldiff_spec, N.bits_0.
    now destruct (N.testbit a n), (N.testbit b n). }
  assert (Hlor : N.lor a b = (a + N.ldiff b a)%N).
  { rewrite N.add_nocarry_lxor, N.lxor_lor by exact Hdisj.
    apply N.bits_inj. intros n.
    rewrite !N.lor_spec, N.ldiff_spec.
    now destruct (N.testbit a n), (N.testbit b n). }
  rewrite Hlor. lia.
Qed.

Lemma N_le_lor_r (a b : N) : (b <= N.lor a b)%N.
Proof. rewrite N.lor_comm. apply N_le_lor_l. Qed.

Lemma utf8_lead_cases (b : byte) :
  let n := Byte.to_N b in
  ((n <= 127)%N /\ utf8_lead n = ([n], Idle))
  \/ (exists cp needed lo hi,
         utf8_lead n = ([], Pending cp needed lo hi)
         /\ pending_ok cp needed lo hi)
  \/ utf8_lead n = ([REPLACEMENT], Idle).
Proof.
  destruct b; cbv zeta;
    first [ left; split; [vm_compute; discriminate | reflexivity]
          | right; right; reflexivity
          | right; left; eexists _, _, _, _; split; [reflexivity|];
            repeat split; vm_compute; first [discriminate | repeat constructor] ].
Qed.

Lemma utf16_units_high (cp : N) :
  (128 <= cp)%N ->
  exists c rest, utf16_units cp = c :: rest /\ (128 <= c)%N.
Proof.
  intros H. unfold utf16_units.
  destruct (cp <? 65536)%N; eexists _, _; (split; [reflexivity|]).
  - exact H.
  - etransitivity; [|apply N.le_add_r]. lia.
Qed.

(** Out of a pending state the next character is never ASCII. *)
Lemma utf8_decode_pending_high (bs : Buffer) :
  forall cp needed lo hi,
    pending_ok cp needed lo hi ->
    exists c rest,
      utf8_decode (Pending cp needed lo hi) bs = c :: rest /\ (128 <= c)%N.
Proof.
  induction bs as [|b bs IH]; intros cp needed lo hi (Hn & Hlo & Hhi & Hcp).
  - exists REPLACEMENT, []. split; [reflexivity | unfold REPLACEMENT; lia].
  - cbn [utf8_decode].
    set (n := Byte.to_N b).
    destruct (within lo hi n) eqn:Hin.
    + apply andb_true_iff in Hin as [H1 H2].
      apply N.leb_le in H1, H2.
      set (cp' := N.lor (N.shiftl cp 6) (N.land n 63)).
      assert (Hcp' : (N.max (cp * 64) (lo - 128) <= cp')%N).
      { unfold cp'. apply N.max_lub.
        - rewrite N.shiftl_mul_pow2. change (2 ^ 6)%N with 64%N.
          apply N_le_lor_l.
        - etransitivity; [|apply N_le_lor_r].
          change 63%N with (N.ones 6). rewrite N.land_ones.
          change (2 ^ 6)%N with 64%N.
          assert (Hmod : (n mod 64 = n - 128)%N).
          { symmetry. apply (N.mod_unique n 64 2); lia. }
          lia. }
      destruct needed as [|[|k]]; [lia | |].
      * cbn [Nat.sub N.of_nat] in Hcp. rewrite N.pow_0_r, N.mul_1_r in Hcp.
        destruct (utf16_units_high cp') as (c & rest & E & Hc); [lia|].
        rewrite E. cbn [app]. eauto.
      * apply IH. repeat split; try lia.
        replace (S (S k) - 1) with (S (S k - 1)) in Hcp by lia.
        rewrite Nat2N.inj_succ, N.pow_succ_r' in Hcp.
        rewrite N.sub_diag, N.max_l by lia.
        nia.
    + destruct (utf8_lead n) as [out st'].
      exists REPLACEMENT, (out ++ utf8_decode st' bs).
      split; [reflexivity | unfold REPLACEMENT; lia].
Qed.

(** Bytes whose text is ASCII are that text, character by character. *)
Lemma toString_utf8_ascii (bs : Buffer) :
  Forall (fun c => (c < 128)%N) (toString_utf8 bs) ->
  toString_utf8 bs = map Byte.to_N bs.
Proof.
  unfold toString_utf8. induction bs as [|b bs IH]; [reflexivity|].
  cbn [utf8_decode map].
  destruct (utf8_lead_cases b) as [[Hb E] | [(cp & k & lo & hi & E & Hok) | E]];
    cbv zeta in *; rewrite E.
  - cbn [app]. intros H. inversion H; subst. now rewrite IH.
  - cbn [app]. intros H.
    destruct (utf8_decode_pending_high bs _ _ _ _ Hok) as (c & rest & Ec & Hc).
    rewrite Ec in H. inversion H; subst. lia.
  - cbn [app]. intros H. inversion H; subst. unfold REPLACEMENT in *. lia.
Qed.

Lemma string_eqb_eq (a b : JSString) : string_eqb a b = true -> a = b.
Proof.
  revert b. induction a as [|x a IH]; intros [|y b]; cbn; try discriminate.
  - reflexivity.
  - intros H. apply andb_true_iff in H as [Hx Hab].
    apply N.eqb_eq in Hx. subst. f_equal. now apply IH.
Qed.

Lemma string_eqb_refl (a : JSString) : string_eqb a a = true.
Proof.
  induction a as [|x a IH]; [reflexivity|]. cbn. now rewrite N.eqb_refl.
Qed.

Lemma map_to_N_inj (a b : Buffer) :
  map Byte.to_N a = map Byte.to_N b -> a = b.
Proof.
  revert b. induction a as [|x a IH]; intros [|y b]; cbn; try discriminate.
  - reflexivity.
  - intros [= Hx Hab]. f_equal; [|now apply IH].
    pose proof (Byte.of_to_N x) as Ex. rewrite Hx, Byte.of_to_N in Ex.
    now injection Ex.
Qed.

(** The tag comparison of the validator is a comparison of bytes. *)
Lemma tag_text_iff_bytes (f0 : Buffer) :
  string_eqb (toString_utf8 f0) UHRP_PROTOCOL_ADDRESS = true
  <-> f0 = bytes "1UHRPYnMHPuQ5Tgb3AF8JXqwKkmZVy5hG".
Proof.
  split.
  - intros H. apply string_eqb_eq in H.
    apply map_to_N_inj. rewrite <- toString_utf8_ascii.
    + rewrite H. reflexivity.
    + rewrite H. unfold UHRP_PROTOCOL_ADDRESS.
      repeat constructor.
  - intros ->. reflexivity.
Qed.

(* ===================================================================== *)
(** ** The validator: the exact condition, and each rejection *)
(* ===================================================================== *)

(** X5. The hash check is a length check: the hex text of a buffer
    matches the pattern exactly when the buffer has 32 bytes, whatever
    the bytes are. *)
Theorem isValidSHA256_iff_32_bytes (buf : Buffer) :
  isValidSHA256 (toString_hex buf) = true <-> List.length buf = 32.
Proof.
  rewrite isValidSHA256_toString_hex. apply Nat.eqb_eq.
Qed.

Section Rejections.

Variable Signature : Type.
Variable Signature_fromDER : list byte -> Completion Signature.
Variable Hash_sha256 : list byte -> list byte.
Variable isValidURL : JSString -> Completion bool.

Local Abbreviation evaluate :=
  (evaluateCommitment Signature_fromDER Hash_sha256 isValidURL).
Local Abbreviation admitted :=
  (admits Signature_fromDER Hash_sha256 isValidURL).
Local Abbreviation signatureVerifies :=
  (spec_SignatureVerifier Signature_fromDER Hash_sha256).

Lemma signatureVerifies_true_iff (messageFields : list Buffer)
  (f7 : Buffer) (pubKey : PublicKey Signature) :
  signatureVerifies messageFields f7 pubKey = true
  <-> exists signature,
        Signature_fromDER f7 = Return signature
        /\ verify pubKey (Hash_sha256 (List.concat messageFields)) signature
           = Return true.
Proof.
  unfold spec_SignatureVerifier. cbv zeta. split.
  - destruct (Signature_fromDER f7) as [sg|e]; [|discriminate].
    destruct (verify pubKey _ sg) as [r|e] eqn:Hver; [|discriminate].
    intros ->. eauto.
  - intros (sg & -> & ->). reflexivity.
Qed.

(** X6. [evaluateCommitment] returns [true] exactly when the buffer
    decodes to the protocol tag, byte for byte, followed by at least seven
    more fields, of which field 2 has 32 bytes, field 4 passes the URL
    predicate, fields 5 and 6 are not stopped by their comparisons, and
    field 7 verifies as a signature over fields 0 to 6. *)
Theorem evaluateCommitment_true_exactly_when (outputScript : Buffer)
  (pubKey : PublicKey Signature) (dateNow : Z) :
  evaluate outputScript pubKey dateNow = Return true
  <-> exists f1 f2 f3 f4 f5 f6 f7 more,
        let tag := bytes "1UHRPYnMHPuQ5Tgb3AF8JXqwKkmZVy5hG" in
        decodeOutputScript outputScript
        = tag :: f1 :: f2 :: f3 :: f4 :: f5 :: f6 :: f7 :: more
        /\ List.length f2 = 32
        /\ isValidURL (toString_utf8 f4) = Return true
        /\ js_le (parseInt (toString_utf8 f5)) (Num (dateNow / 1000)) = false
        /\ js_le (parseInt (toString_utf8 f6)) (Num 0) = false
        /\ signatureVerifies [tag; f1; f2; f3; f4; f5; f6] f7 pubKey = true.
Proof.
  rewrite evaluateCommitment_true_iff. split.
  - intros (f0 & f1 & f2 & f4 & f5 & f6 & f7 & sg & E0 & E1 & E2 & E4 & E5
            & E6 & E7 & Htag & Hhash & Hurl & Hexp & Hsize & Hder & Hver).
    destruct (decodeOutputScript outputScript)
      as [|g0 [|g1 [|g2 [|g3 [|g4 [|g5 [|g6 [|g7 more]]]]]]]];
      try discriminate.
    cbn in E0, E1, E2, E4, E5, E6, E7.
    injection E0 as ->. injection E1 as ->. injection E2 as ->.
    injection E4 as ->. injection E5 as ->. injection E6 as ->.
    injection E7 as ->.
    apply tag_text_iff_bytes in Htag. subst f0.
    exists f1, f2, g3, f4, f5, f6, f7, more. cbv zeta.
    repeat split; try assumption.
    + rewrite isValidSHA256_toString_hex in Hhash. now apply Nat.eqb_eq.
    + apply signatureVerifies_true_iff. exists sg. split; assumption.
  - intros (f1 & f2 & f3 & f4 & f5 & f6 & f7 & more & Hdec & Hhash & Hurl
            & Hexp & Hsize & Hsig).
    cbv zeta in Hdec, Hsig. rewrite Hdec.
    apply signatureVerifies_true_iff in Hsig as (sg & Hder & Hver).
    exists (bytes "1UHRPYnMHPuQ5Tgb3AF8JXqwKkmZVy5hG"), f1, f2, f4, f5, f6,
      f7, sg.
    repeat split; try assumption.
    rewrite isValidSHA256_toString_hex. now apply Nat.eqb_eq.
Qed.

(** X7. A token whose field 0 differs from the protocol tag in any byte
    is evaluated to [false]. *)
Theorem evaluateCommitment_rejects_other_tag (outputScript : Buffer)
  (pubKey : PublicKey Signature) (dateNow : Z) (f0 : Buffer) :
  field (decodeOutputScript outputScript) 0 = Some f0 ->
  f0 <> bytes "1UHRPYnMHPuQ5Tgb3AF8JXqwKkmZVy5hG" ->
  evaluate outputScript pubKey dateNow = Return false.
Proof.
  intros E0 Hne. apply evaluateCommitment_false_iff.
  intros (f0' & f1 & f2 & f4 & f5 & f6 & f7 & sg & E0' & _ & _ & _ & _ & _
          & _ & Htag & _).
  rewrite E0 in E0'. injection E0' as <-.
  now apply tag_text_iff_bytes in Htag.
Qed.

(** X8. A token whose field 4 does not pass the URL predicate, because
    the predicate answers [false] or because it throws, is evaluated to
    [false]. *)
Theorem evaluateCommitment_rejects_bad_URL (outputScript : Buffer)
  (pubKey : PublicKey Signature) (dateNow : Z) (f4 : Buffer) :
  field (decodeOutputScript outputScript) 4 = Some f4 ->
  isValidURL (toString_utf8 f4) <> Return true ->
  evaluate outputScript pubKey dateNow = Return false.
Proof.
  intros E4 Hne. apply evaluateCommitment_false_iff.
  intros (f0 & f1 & f2 & f4' & f5 & f6 & f7 & sg & _ & _ & _ & E4' & _ & _
          & _ & _ & _ & Hurl & _).
  rewrite E4 in E4'. injection E4' as <-. contradiction.
Qed.

(** X9. A token whose field 5 parses to an integer at or below the
    current unix time is evaluated to [false]. *)
Theorem evaluateCommitment_rejects_expired (outputScript : Buffer)
  (pubKey : PublicKey Signature) (dateNow : Z) (f5 : Buffer) (expiry : Z) :
  field (decodeOutputScript outputScript) 5 = Some f5 ->
  parseInt (toString_utf8 f5) = Num expiry ->
  (expiry <= dateNow / 1000)%Z ->
  evaluate outputScript pubKey dateNow = Return false.
Proof.
  intros E5 Hparse Hle. apply evaluateCommitment_false_iff.
  intros (f0 & f1 & f2 & f4 & f5' & f6 & f7 & sg & _ & _ & _ & _ & E5' & _
          & _ & _ & _ & _ & Hexp & _).
  rewrite E5 in E5'. injection E5' as <-.
  rewrite Hparse in Hexp. cbn in Hexp. apply Z.leb_gt in Hexp. lia.
Qed.

(** X10. A token whose field 6 parses to zero or to a negative integer
    is evaluated to [false]. *)
Theorem evaluateCommitment_rejects_empty_file (outputScript : Buffer)
  (pubKey : PublicKey Signature) (dateNow : Z) (f6 : Buffer) (fileSize : Z) :
  field (decodeOutputScript outputScript) 6 = Some f6 ->
  parseInt (toString_utf8 f6) = Num fileSize ->
  (fileSize <= 0)%Z ->
  evaluate outputScript pubKey dateNow = Return false.
Proof.
  intros E6 Hparse Hle. apply evaluateCommitment_false_iff.
  intros (f0 & f1 & f2 & f4 & f5 & f6' & f7 & sg & _ & _ & _ & _ & _ & E6'
          & _ & _ & _ & _ & _ & Hsize & _).
  rewrite E6 in E6'. injection E6' as <-.
  rewrite Hparse in Hsize. cbn in Hsize. apply Z.leb_gt in Hsize. lia.
Qed.

(** X11. A token whose field 7 does not verify, because it is not DER,
    because the key answers [false] or because the key throws, is
    evaluated to [false] whatever its other fields are. *)
Theorem evaluateCommitment_rejects_bad_signature (outputScript : Buffer)
  (pubKey : PublicKey Signature) (dateNow : Z) (f7 : Buffer) :
  field (decodeOutputScript outputScript) 7 = Some f7 ->
  signatureVerifies (firstn 7 (decodeOutputScript outputScript)) f7 pubKey
  = false ->
  evaluate outputScript pubKey dateNow = Return false.
Proof.
  intros E7 Hsig. apply evaluateCommitment_false_iff.
  intros (f0 & f1 & f2 & f4 & f5 & f6 & f7' & sg & _ & _ & _ & _ & _ & _
          & E7' & _ & _ & _ & _ & _ & Hder & Hver).
  rewrite E7 in E7'. injection E7' as <-.
  assert (Htrue : signatureVerifies
                    (firstn 7 (decodeOutputScript outputScript)) f7 pubKey
                  = true).
  { apply signatureVerifies_true_iff. exists sg. split; assumption. }
  congruence.
Qed.

(** X12. Bytes that follow a token of eight or more encoded fields do
    not change the verdict. *)
Theorem evaluateCommitment_ignores_trailing_bytes (fields : list Buffer)
  (rest : Buffer) (pubKey : PublicKey Signature) (dateNow : Z) :
  8 <= List.length fields ->
  encodable fields ->
  evaluate (createOutputScript fields ++ rest) pubKey dateNow
  = evaluate (createOutputScript fields) pubKey dateNow.
Proof.
  intros Hlen Henc.
  assert (H8 : firstn 8 (decodeOutputScript (createOutputScript fields ++ rest))
               = firstn 8 (decodeOutputScript (createOutputScript fields))).
  { rewrite <- (app_nil_r (createOutputScript fields)) at 2.
    rewrite !decodeOutputScript_app_fields by assumption.
    rewrite !firstn_app.
    replace (8 - List.length fields) with 0 by lia. reflexivity. }
  destruct (evaluateCommitment_returns _ Signature_fromDER Hash_sha256
              isValidURL (createOutputScript fields ++ rest) pubKey dateNow)
    as [b1 Hb1].
  destruct (evaluateCommitment_returns _ Signature_fromDER Hash_sha256
              isValidURL (createOutputScript fields) pubKey dateNow)
    as [b2 Hb2].
  rewrite Hb1, Hb2. f_equal.
  destruct b1, b2; try reflexivity; exfalso.
  - apply evaluateCommitment_true_iff in Hb1.
    apply evaluateCommitment_false_iff in Hb2. apply Hb2.
    exact (admits_first_eight _ Signature_fromDER Hash_sha256 isValidURL
             _ _ pubKey dateNow H8 Hb1).
  - apply evaluateCommitment_true_iff in Hb2.
    apply evaluateCommitment_false_iff in Hb1. apply Hb1.
    exact (admits_first_eight _ Signature_fromDER Hash_sha256 isValidURL
             _ _ pubKey dateNow (eq_sym H8) Hb2).
Qed.

End Rejections.

(* ===================================================================== *)
(** ** From the producer to the validator *)
(* ===================================================================== *)







(** *** Decimal text *)















(** *** The token of the test suite *)


Section EndToEnd.

Variable Signature : Type.
Variable PrivateKey : Type.
Variable Signature_fromDER : list byte -> Completion Signature.
Variable Hash_sha256 : list byte -> list byte.
Variable isValidURL : JSString -> Completion bool.
Variable PrivateKey_sign : PrivateKey -> list byte -> Signature.
Variable Signature_toDER : Signature -> list byte.


End EndToEnd.

(* ===================================================================== *)
(** ** The further theorems on concrete tokens *)
(* ===================================================================== *)

Lemma evaluateCommitment_rejects_other_tag_witness :
  Fixture.evaluate
    (createOutputScript
       [bytes "invalid_protocol"; bytes "host"; Fixture.VALID_HASH;
        bytes "advertise"; bytes "https://valid.url"; bytes "1700001000";
        bytes "1024";
        Fixture.signCommitment x2a (Fixture.messageFields "1700001000" "1024")])
    (Fixture.pubKey x2a) Fixture.dateNow = Return false.
Proof.
  apply (evaluateCommitment_rejects_other_tag Fixture.Signature
           Fixture.Signature_fromDER Fixture.Hash_sha256 Fixture.isValidURL
           _ (Fixture.pubKey x2a) Fixture.dateNow (bytes "invalid_protocol"));
    by_evaluation.
Defined.

Lemma evaluateCommitment_rejects_bad_URL_witness :
  Fixture.evaluate
    (createOutputScript
       [bytes "1UHRPYnMHPuQ5Tgb3AF8JXqwKkmZVy5hG"; bytes "host";
        Fixture.VALID_HASH; bytes "advertise"; bytes "invalid-url";
        bytes "1700001000"; bytes "1024";
        Fixture.signCommitment x2a (Fixture.messageFields "1700001000" "1024")])
    (Fixture.pubKey x2a) Fixture.dateNow = Return false.
Proof.
  apply (evaluateCommitment_rejects_bad_URL Fixture.Signature
           Fixture.Signature_fromDER Fixture.Hash_sha256 Fixture.isValidURL
           _ (Fixture.pubKey x2a) Fixture.dateNow (bytes "invalid-url"));
    by_evaluation.
Defined.

Lemma evaluateCommitment_rejects_expired_witness :
  Fixture.evaluate (Fixture.token "1699999000" "1024") (Fixture.pubKey x2a)
                   Fixture.dateNow = Return false.
Proof.
  apply (evaluateCommitment_rejects_expired Fixture.Signature
           Fixture.Signature_fromDER Fixture.Hash_sha256 Fixture.isValidURL
           _ (Fixture.pubKey x2a) Fixture.dateNow (bytes "1699999000")
           1699999000%Z);
    by_evaluation.
Defined.

Lemma evaluateCommitment_rejects_empty_file_witness :
  Fixture.evaluate (Fixture.token "1700001000" "0") (Fixture.pubKey x2a)
                   Fixture.dateNow = Return false
  /\ Fixture.evaluate (Fixture.token "1700001000" "-1") (Fixture.pubKey x2a)
                      Fixture.dateNow = Return false.
Proof.
  split.
  - apply (evaluateCommitment_rejects_empty_file Fixture.Signature
             Fixture.Signature_fromDER Fixture.Hash_sha256 Fixture.isValidURL
             _ (Fixture.pubKey x2a) Fixture.dateNow (bytes "0") 0%Z);
      by_evaluation.
  - apply (evaluateCommitment_rejects_empty_file Fixture.Signature
             Fixture.Signature_fromDER Fixture.Hash_sha256 Fixture.isValidURL
             _ (Fixture.pubKey x2a) Fixture.dateNow (bytes "-1") (-1)%Z);
      by_evaluation.
Defined.

Lemma evaluateCommitment_rejects_bad_signature_witness :
  Fixture.evaluate
    (createOutputScript
       (Fixture.messageFields "1700001000" "1024" ++ [[x00; x00]]))
    (Fixture.pubKey x2a) Fixture.dateNow = Return false
  /\ Fixture.evaluate (Fixture.token "1700001000" "1024") (Fixture.pubKey x2b)
                      Fixture.dateNow = Return false.
Proof.
  split.
  - apply (evaluateCommitment_rejects_bad_signature Fixture.Signature
             Fixture.Signature_fromDER Fixture.Hash_sha256 Fixture.isValidURL
             _ (Fixture.pubKey x2a) Fixture.dateNow [x00; x00]);
      by_evaluation.
  - apply (evaluateCommitment_rejects_bad_signature Fixture.Signature
             Fixture.Signature_fromDER Fixture.Hash_sha256 Fixture.isValidURL
             _ (Fixture.pubKey x2b) Fixture.dateNow
             (Fixture.signCommitment x2a
                (Fixture.messageFields "1700001000" "1024")));
      by_evaluation.
Defined.

Lemma evaluateCommitment_ignores_trailing_bytes_witness :
  Fixture.evaluate
    (createOutputScript (Fixture.tokenFields "1700001000" "1024")
       ++ [x05; x41])
    (Fixture.pubKey x2a) Fixture.dateNow
  = Fixture.evaluate
      (createOutputScript (Fixture.tokenFields "1700001000" "1024"))
      (Fixture.pubKey x2a) Fixture.dateNow.
Proof.
  apply (evaluateCommitment_ignores_trailing_bytes Fixture.Signature
           Fixture.Signature_fromDER Fixture.Hash_sha256 Fixture.isValidURL).
  - by_evaluation.
  - unfold encodable. repeat constructor; vm_compute; discriminate.
Defined.

